(** * The R2Index Airflow provider: hook, link and batch operators

    A shallow embedding of
    - [hooks/r2index.py]     ([R2IndexHook]: secret references, the vault,
                              connection and environment configuration tiers),
    - [links/r2index.py]     ([R2IndexFileLink.get_link]),
    - [operators/r2index.py] ([R2IndexUploadOperator], [R2IndexDownloadOperator]:
                              construction, the per-item coroutines, the gather
                              of all coroutines on one event loop, the error
                              check of [execute]),
    followed by the properties of the specification that concern them.

    Python values are an inductive type of JSON-like values; a [dict] is an
    association list in insertion order.  The collaborators the provider
    talks to (connection store, vault, process environment, JSON decoder,
    storage client) are the fields of a [World]; every call to one of them is
    recorded in a trace of events.  [self.log] calls have no effect on any
    value and are left out. *)

From Stdlib Require Import Ascii String ZArith Lia.
From stdpp Require Import base option list gmap strings pretty.

Set Warnings "-register-all".
Open Scope string_scope.
Open Scope list_scope.

(** ** The fragment of Python the provider uses *)

Module Py.

Inductive pyval : Type :=
| PNone
| PBool (b : bool)
| PInt (n : Z)
| PStr (s : string)
| PList (xs : list pyval)
| PDict (kvs : list (string * pyval)).

(** [bool(v)] *)
Definition truthy (v : pyval) : bool :=
  match v with
  | PNone => false
  | PBool b => b
  | PInt n => negb (n =? 0)%Z
  | PStr s => negb (String.eqb s "")
  | PList xs => match xs with [] => false | _ => true end
  | PDict kvs => match kvs with [] => false | _ => true end
  end.

(** [str | None] seen as a value *)
Definition of_opt (o : option string) : pyval :=
  match o with Some s => PStr s | None => PNone end.

(** The first binding of [k] (a well-formed dict binds a key once). *)
Fixpoint assoc (k : string) (kvs : list (string * pyval)) : option pyval :=
  match kvs with
  | [] => None
  | (k', v) :: rest => if String.eqb k k' then Some v else assoc k rest
  end.

(** [d.get(k)] on a dict [d]: the value, or [None] *)
Definition dict_get (kvs : list (string * pyval)) (k : string) : pyval :=
  default PNone (assoc k kvs).

(** [c in s] for a one-character [c] *)
Fixpoint char_in (c : ascii) (s : string) : bool :=
  match s with
  | EmptyString => false
  | String a rest => Ascii.eqb a c || char_in c rest
  end.

(** [s.rsplit(c, 1)] when it has two parts: the text before the last [c]
    and the text after it; [None] when [c] does not occur in [s]
    (Python then returns the one-element list [[s]]). *)
Fixpoint rsplit1 (c : ascii) (s : string) : option (string * string) :=
  match s with
  | EmptyString => None
  | String a rest =>
      match rsplit1 c rest with
      | Some (l, r) => Some (String a l, r)
      | None => if Ascii.eqb a c then Some (EmptyString, rest) else None
      end
  end.

(** [str(n)] of a non-negative [int] such as [len(xs)] *)
Definition str_of_nat (n : nat) : string := pretty n.

(** [str(v)], as an f-string formats [v]; the [repr]-based rendering of
    containers is not modelled ([None]). *)
Definition py_str (v : pyval) : option string :=
  match v with
  | PNone => Some "None"
  | PBool true => Some "True"
  | PBool false => Some "False"
  | PInt n => Some (pretty n)
  | PStr s => Some s
  | PList _ | PDict _ => None
  end.

(** Exceptions.  All are subclasses of [Exception]. *)
Inductive builtin_error : Type := KeyError | AttributeError | TypeError | ValueError.

Inductive exn : Type :=
| AirflowException (msg : string)
| ExternalError (msg : string)        (* raised by a collaborator; [str(e) = msg] *)
| BuiltinError (k : builtin_error).   (* raised by the interpreter *)

Inductive outcome (A : Type) : Type :=
| Returned (a : A)
| Raised (e : exn).
Arguments Returned {A} a.
Arguments Raised {A} e.

(** A call into the storage client, seen from [try: ... except Exception
    as e]: its value, or [str(e)] of the exception it raised. *)
Inductive client_result (A : Type) : Type :=
| ClientOk (a : A)
| ClientRaised (message : string).
Arguments ClientOk {A} a.
Arguments ClientRaised {A} message.

(** [o or d] for [o : str | None] and [d : str] *)
Definition opt_or (o : option string) (d : string) : string :=
  match o with
  | Some s => if String.eqb s "" then d else s
  | None => d
  end.

(** [v == s] for a string literal [s] *)
Definition eq_str (v : pyval) (s : string) : bool :=
  match v with PStr s' => String.eqb s' s | _ => false end.

(** [d[k]] on a dict *)
Definition subscript (kvs : list (string * pyval)) (k : string) : outcome pyval :=
  match assoc k kvs with
  | Some v => Returned v
  | None => Raised (BuiltinError KeyError)
  end.

(** A list comprehension whose element expression may raise. *)
Fixpoint comprehension {A B} (f : A -> outcome B) (xs : list A) : outcome (list B) :=
  match xs with
  | [] => Returned []
  | x :: rest =>
      match f x with
      | Raised e => Raised e
      | Returned y =>
          match comprehension f rest with
          | Raised e => Raised e
          | Returned ys => Returned (y :: ys)
          end
      end
  end.

End Py.
Export Py.

(** ** Collaborators and the trace of calls made to them *)

(** [airflow.models.Connection], the fields the hook reads. *)
Record Connection : Type := {
  host : option string;
  password : option string;
  extra_dejson : list (string * pyval);
}.

(** The configuration dict: five fixed keys, the keyword arguments of the
    client.  The values come from JSON, secrets or the environment. *)
Record ConnectionConfig : Type := {
  index_api_url : pyval;
  index_api_token : pyval;
  r2_access_key_id : pyval;
  r2_secret_access_key : pyval;
  r2_endpoint_url : pyval;
}.

(** A constructed [VaultHook]: its [get_secret(secret_path, None)], which
    returns the secret's dict or [None], or raises. *)
Definition VaultClient : Type := string -> outcome (option (list (string * pyval))).

Record UploadItem : Type := {
  source : string;
  category : string;
  entity : string;
  extension : string;
  media_type : string;
  destination_path : string;
  destination_filename : string;
  destination_version : string;
  u_bucket : option string;            (* bucket *)
  name : option string;
  tags : option (list string);
  extra : option (list (string * pyval));
  create_checksum_files : bool;
  u_r2index_conn_id : option string;   (* r2index_conn_id *)
}.

Record DownloadItem : Type := {
  source_path : string;
  source_filename : string;
  source_version : string;
  destination : string;
  d_bucket : option string;            (* bucket *)
  verify_checksum : bool;
  overwrite : bool;
  d_r2index_conn_id : option string;   (* r2index_conn_id *)
}.

(** What lies outside the repository.  [TC] is [R2TransferConfig], opaque.
    [client_upload cfg bucket item tc] is the whole block
    [async with AsyncR2IndexClient(...) as client: ... client.upload(...)
    ... file_record.model_dump()], the client being built from [cfg]: the
    dumped record, or the message of the exception the block raised.
    [client_download] likewise returns [str(downloaded_path)] and the
    dumped record ([None] when the client gave no record).  The answer of
    a collaborator depends on the arguments of the call only, not on the
    moment of the call. *)
Record World (TC : Type) : Type := {
  get_connection : string -> outcome Connection;
  new_VaultHook : pyval -> outcome VaultClient;
  environ_get : string -> option string;
  json_loads : string -> outcome pyval;
  client_upload :
    ConnectionConfig -> string -> UploadItem -> option TC -> client_result pyval;
  client_download :
    ConnectionConfig -> string -> DownloadItem -> option TC -> client_result (string * pyval);
}.
Arguments get_connection {TC} w _.
Arguments new_VaultHook {TC} w _.
Arguments environ_get {TC} w _.
Arguments json_loads {TC} w _.
Arguments client_upload {TC} w _ _ _ _.
Arguments client_download {TC} w _ _ _ _.

Inductive event : Type :=
| EvGetConnection (conn_id : string)
| EvVaultHook (vault_conn_id : pyval)
| EvGetSecret (path : string)
| EvEnviron (var : string)
| EvJsonLoads (text : string)
| EvUpload (cfg : ConnectionConfig) (bucket : string) (item : UploadItem)
| EvDownload (cfg : ConnectionConfig) (bucket : string) (item : DownloadItem).

(** Computations that call collaborators, with the calls they made.
    [io A] may raise; [total A] cannot. *)
Module IO.

Definition total (A : Type) : Type := A * list event.
Definition io (A : Type) : Type := outcome A * list event.

Definition ret {A} (a : A) : io A := (Returned a, []).
Definition raise {A} (e : exn) : io A := (Raised e, []).

Definition bind {A B} (m : io A) (f : A -> io B) : io B :=
  match m with
  | (Returned a, t) => let '(r, t') := f a in (r, t ++ t')
  | (Raised e, t) => (Raised e, t)
  end.

(** Calling a collaborator: the call is recorded, its outcome is the result. *)
Definition call {A} (ev : event) (r : outcome A) : io A := (r, [ev]).

(** A computation that cannot raise, inside one that may. *)
Definition lift {A} (m : total A) : io A := (Returned m.1, m.2).

(** [try: m  except Exception as e: h e], with a handler that returns. *)
Definition try_except {A} (m : io A) (h : exn -> total A) : total A :=
  match m with
  | (Returned a, t) => (a, t)
  | (Raised e, t) => let '(a, t') := h e in (a, t ++ t')
  end.

End IO.
Export IO.

Notation "'let*' p ':=' m 'in' k" := (bind m (fun p => k))
  (at level 10, p pattern, m at level 200, k at level 200, only parsing).

(** ** hooks/r2index.py *)

Module Hook.

(** [R2IndexHook.CONFIG_KEYS] *)
Definition CONFIG_KEYS : list string :=
  ["r2index_api_url"; "r2index_api_token"; "r2_access_key_id";
   "r2_secret_access_key"; "r2_endpoint_url"].

(** [R2IndexHook._parse_secret_ref] *)
Definition _parse_secret_ref (secret_ref default_key : string) : string * string :=
  if char_in "#" secret_ref then
    match rsplit1 "#" secret_ref with
    | Some (path, key) => (path, key)
    | None => (secret_ref, default_key)   (* not reached: [rsplit1] splits when "#" occurs *)
    end
  else (secret_ref, default_key).

Section WithWorld.
Context {TC : Type} (w : World TC).

(** [R2IndexHook._get_config_from_env]: five [os.environ.get], which
    gives [None] for a variable that is not set. *)
Definition _get_config_from_env : total ConnectionConfig :=
  ({| index_api_url := of_opt (environ_get w "R2INDEX_API_URL");
      index_api_token := of_opt (environ_get w "R2INDEX_API_TOKEN");
      r2_access_key_id := of_opt (environ_get w "R2_ACCESS_KEY_ID");
      r2_secret_access_key := of_opt (environ_get w "R2_SECRET_ACCESS_KEY");
      r2_endpoint_url := of_opt (environ_get w "R2_ENDPOINT_URL") |},
   [EvEnviron "R2INDEX_API_URL"; EvEnviron "R2INDEX_API_TOKEN";
    EvEnviron "R2_ACCESS_KEY_ID"; EvEnviron "R2_SECRET_ACCESS_KEY";
    EvEnviron "R2_ENDPOINT_URL"]).

(** [secrets.get(config_key)]: [secrets] is whatever the connection's
    extra held; only a dict has [get]. *)
Definition secrets_get (secrets : pyval) (config_key : string) : io pyval :=
  match secrets with
  | PDict kvs => ret (dict_get kvs config_key)
  | _ => raise (BuiltinError AttributeError)
  end.

(** What a truthy reference that is not a string runs into: ["#" in ref]
    on a bool or int, [ref.rsplit] when "#" is found in a list or dict,
    hashing the list or dict as a cache key otherwise. *)
Definition non_str_ref_error (secret_ref : pyval) : builtin_error :=
  match secret_ref with
  | PList xs => if existsb (fun x => eq_str x "#") xs then AttributeError else TypeError
  | PDict kvs =>
      if existsb (fun kv => String.eqb (fst kv) "#") kvs then AttributeError else TypeError
  | _ => TypeError
  end.

(** The closure [get_secret_value] of [_get_config_from_vault]; the
    dict [secret_cache] it updates is passed in and out. *)
Definition get_secret_value (vault_hook : VaultClient) (secrets : pyval)
    (config_key : string) (secret_cache : gmap string (list (string * pyval)))
    : io (pyval * gmap string (list (string * pyval))) :=
  let* secret_ref := secrets_get secrets config_key in
  if negb (truthy secret_ref) then ret (PNone, secret_cache)
  else
    match secret_ref with
    | PStr ref =>
        let '(path, key) := _parse_secret_ref ref config_key in
        let* (entry, secret_cache') :=
          match secret_cache !! path with
          | Some entry => ret (entry, secret_cache)
          | None =>
              let* data := call (EvGetSecret path) (vault_hook path) in
              let entry := default [] data in       (* data or {} *)
              ret (entry, <[path := entry]> secret_cache)
          end in
        ret (dict_get entry key, secret_cache')
    | _ => raise (BuiltinError (non_str_ref_error secret_ref))
    end.

(** [R2IndexHook._get_config_from_vault] *)
Definition _get_config_from_vault (vault_conn_id secrets namespace : pyval)
    : total (option ConnectionConfig) :=
  try_except
    (let* vault_hook :=
       call (EvVaultHook vault_conn_id) (new_VaultHook w vault_conn_id) in
     let secret_cache : gmap string (list (string * pyval)) := ∅ in
     let* (url, secret_cache) :=
       get_secret_value vault_hook secrets "r2index_api_url" secret_cache in
     let* (token, secret_cache) :=
       get_secret_value vault_hook secrets "r2index_api_token" secret_cache in
     let* (key_id, secret_cache) :=
       get_secret_value vault_hook secrets "r2_access_key_id" secret_cache in
     let* (secret, secret_cache) :=
       get_secret_value vault_hook secrets "r2_secret_access_key" secret_cache in
     let* (endpoint, secret_cache) :=
       get_secret_value vault_hook secrets "r2_endpoint_url" secret_cache in
     ret (Some {| index_api_url := url;
                  index_api_token := token;
                  r2_access_key_id := key_id;
                  r2_secret_access_key := secret;
                  r2_endpoint_url := endpoint |}))
    (fun _ => (None, [])).

(** [R2IndexHook._get_config_from_connection], for the hook built with
    [r2index_conn_id] *)
Definition _get_config_from_connection (r2index_conn_id : string)
    : total (option ConnectionConfig) :=
  try_except
    (let* conn :=
       call (EvGetConnection r2index_conn_id) (get_connection w r2index_conn_id) in
     let extra := extra_dejson conn in
     let vault_conn_id := dict_get extra "vault_conn_id" in
     if truthy vault_conn_id then
       let secrets_raw := dict_get extra "vault_secrets_mapping" in
       if negb (truthy secrets_raw) then ret None
       else
         let* secrets :=
           match secrets_raw with
           | PStr text => call (EvJsonLoads text) (json_loads w text)
           | _ => ret secrets_raw
           end in
         lift (_get_config_from_vault vault_conn_id secrets
                 (dict_get extra "vault_namespace"))
     else
       ret (Some {| index_api_url := of_opt (host conn);
                    index_api_token := of_opt (password conn);
                    r2_access_key_id := dict_get extra "r2_access_key_id";
                    r2_secret_access_key := dict_get extra "r2_secret_access_key";
                    r2_endpoint_url := dict_get extra "r2_endpoint_url" |}))
    (fun _ => (None, [])).

End WithWorld.

End Hook.

(** ** links/r2index.py *)

Module Links.

Definition files_url : string := "https://r2index.elaunira.com/files/".

(** The f-string of [get_link]; [None] when [str(file_id)] is not modelled. *)
Definition format_link (file_id : pyval) : option (outcome string) :=
  s ← py_str file_id; Some (Returned (files_url +:+ s)).

(** [R2IndexFileLink.get_link], applied to the value [XCom.get_value]
    returned for the key [return_value] *)
Definition get_link (result : pyval) : option (outcome string) :=
  match result with
  | PDict kvs =>
      if truthy result then
        let by_id := dict_get kvs "id" in
        if truthy by_id then format_link by_id
        else
          match default (PDict []) (assoc "file_record" kvs) with
          | PDict record =>
              let file_id := dict_get record "id" in
              if truthy file_id then format_link file_id else Some (Returned "")
          | _ => Some (Raised (BuiltinError AttributeError))
          end
      else Some (Returned "")
  | _ => Some (Returned "")
  end.

End Links.

(** ** operators/r2index.py *)

Module Operators.
Import Hook.

(** The [items] argument of the constructors: [list[Item] | Item]. *)
Inductive items_arg (Item : Type) : Type :=
| OneItem (item : Item)
| ItemList (items : list Item).
Arguments OneItem {Item} item.
Arguments ItemList {Item} items.

(** The attributes [__init__] sets, for either operator. *)
Record Operator (Item TC : Type) : Type := {
  bucket : string;
  items : list Item;
  r2index_conn_id : string;
  transfer_config : option TC;
}.
Arguments bucket {Item TC} _.
Arguments items {Item TC} _.
Arguments r2index_conn_id {Item TC} _.
Arguments transfer_config {Item TC} _.

(** [R2IndexUploadOperator.__init__]; [conn_id = None] is the keyword
    left to its default. *)
Definition R2IndexUploadOperator_init {TC} (bucket : string)
    (items : items_arg UploadItem) (conn_id : option string)
    (transfer_config : option TC) : Operator UploadItem TC :=
  {| bucket := bucket;
     items := match items with OneItem item => [item] | ItemList l => l end;
     r2index_conn_id := default "r2index_default" conn_id;
     transfer_config := transfer_config |}.

(** [R2IndexDownloadOperator.__init__] *)
Definition R2IndexDownloadOperator_init {TC} (bucket : string)
    (items : items_arg DownloadItem) (conn_id : option string)
    (transfer_config : option TC) : Operator DownloadItem TC :=
  {| bucket := bucket;
     items := match items with OneItem item => [item] | ItemList l => l end;
     r2index_conn_id := default "r2index_default" conn_id;
     transfer_config := transfer_config |}.

(** What the coroutines of one [execute] share: the dict [conn_configs],
    and the calls made so far. *)
Record shared : Type := {
  conn_configs : gmap string ConnectionConfig;
  calls : list event;
}.

(** A coroutine [upload_one(item)] or [download_one(item)]: not started;
    suspended inside its [async with] block, holding the configuration
    and bucket it computed; or returned. *)
Inductive coroutine (Item : Type) : Type :=
| Created (item : Item)
| Suspended (config : ConnectionConfig) (bucket : string) (item : Item)
| Finished (result : list (string * pyval)).
Arguments Created {Item} item.
Arguments Suspended {Item} config bucket item.
Arguments Finished {Item} result.

Definition unfinished {Item} (c : coroutine Item) : bool :=
  match c with Finished _ => false | _ => true end.

Definition result_of {Item} (c : coroutine Item) : option (list (string * pyval)) :=
  match c with Finished r => Some r | _ => None end.

(** The event loop of [asyncio.run]: the tasks [gather] made, in the order
    of its arguments, and the state they share. *)
Record loop (Item : Type) : Type := {
  tasks : list (coroutine Item);
  state : shared;
}.
Arguments tasks {Item} _.
Arguments state {Item} _.

(** The positions of the tasks that can still run. *)
Fixpoint ready_from {Item} (i : nat) (ts : list (coroutine Item)) : list nat :=
  match ts with
  | [] => []
  | c :: rest =>
      if unfinished c then i :: ready_from (S i) rest else ready_from (S i) rest
  end.

Section Batch.
Context {TC : Type} (w : World TC).

(** [_get_client_config], the same method in both operators.  The final
    [config or {}] returns [config]: a dict with five keys is truthy. *)
Definition _get_client_config (conn_id : string) : total ConnectionConfig :=
  let '(config, t) := _get_config_from_connection w conn_id in
  match config with
  | Some c =>
      if negb (truthy (index_api_url c))
      then let '(c', t') := _get_config_from_env w in (c', t ++ t')
      else (c, t)
  | None => let '(c', t') := _get_config_from_env w in (c', t ++ t')
  end.

(** The closure [get_or_create_config] of [execute].  It is an [async
    def] without an [await]: it runs to its end once entered. *)
Definition get_or_create_config (conn_id : string) (st : shared)
    : ConnectionConfig * shared :=
  match conn_configs st !! conn_id with
  | Some config => (config, st)
  | None =>
      let '(config, t) := _get_client_config conn_id in
      (config, {| conn_configs := <[conn_id := config]> (conn_configs st);
                  calls := calls st ++ t |})
  end.

(** One coroutine and the loop that runs it, for either kind of item:
    [conn_id_of] and [bucket_of] are the first two lines of the
    coroutine, [attempt] is its [try ... except Exception]. *)
Section Coroutine.
Context {Item : Type}.
Variable conn_id_of : Item -> string.
Variable bucket_of : Item -> string.
Variable attempt : ConnectionConfig -> string -> Item -> total (list (string * pyval)).

(** Run a coroutine up to its next suspension: from its start up to the
    [async with] (the awaited [get_or_create_config] does not
    suspend), or from there to its [return]. *)
Definition resume (c : coroutine Item) (st : shared) : coroutine Item * shared :=
  match c with
  | Created item =>
      let conn_id := conn_id_of item in
      let bucket := bucket_of item in
      let '(config, st) := get_or_create_config conn_id st in
      (Suspended config bucket item, st)
  | Suspended config bucket item =>
      let '(result, t) := attempt config bucket item in
      (Finished result, {| conn_configs := conn_configs st; calls := calls st ++ t |})
  | Finished result => (Finished result, st)
  end.

(** One turn of the loop: some ready task, picked by [choice], is
    resumed.  Which one is not determined by the program. *)
Definition run_once (choice : nat) (l : loop Item) : loop Item :=
  let ready := ready_from 0 (tasks l) in
  match ready !! (choice mod length ready) with
  | None => l
  | Some i =>
      match tasks l !! i with
      | None => l
      | Some c =>
          let '(c', st) := resume c (state l) in
          {| tasks := <[i := c']> (tasks l); state := st |}
      end
  end.

Fixpoint run_loop (sched : nat -> nat) (now turns : nat) (l : loop Item) : loop Item :=
  match turns with
  | O => l
  | S turns' => run_loop sched (S now) turns' (run_once (sched now) l)
  end.

(** [asyncio.run(all())] where [all] gathers one coroutine per item:
    the results in the order of the items, and the shared state at the
    end.  Every coroutine has two resumptions, so [2 * len(items)]
    turns are all the loop has to make. *)
Definition run_gather (sched : nat -> nat) (items : list Item)
    : list (list (string * pyval)) * shared :=
  let l := run_loop sched 0 (2 * length items)
             {| tasks := Created <$> items;
                state := {| conn_configs := ∅; calls := [] |} |} in
  (omap result_of (tasks l), state l).

End Coroutine.

(** *** R2IndexUploadOperator *)

Definition upload_conn_id (self : Operator UploadItem TC) (item : UploadItem) : string :=
  opt_or (u_r2index_conn_id item) (r2index_conn_id self).

Definition upload_bucket (self : Operator UploadItem TC) (item : UploadItem) : string :=
  opt_or (u_bucket item) (bucket self).

(** The [try ... except Exception as e] of [upload_one] *)
Definition upload_try (self : Operator UploadItem TC) (config : ConnectionConfig)
    (bucket : string) (item : UploadItem) : total (list (string * pyval)) :=
  (match client_upload w config bucket item (transfer_config self) with
   | ClientOk file_record =>
       [("status", PStr "success"); ("file_record", file_record)]
   | ClientRaised message =>
       [("status", PStr "error"); ("message", PStr message);
        ("source", PStr (source item))]
   end,
   [EvUpload config bucket item]).

(** [upload_one], as resumed by the loop *)
Definition upload_one (self : Operator UploadItem TC) :=
  resume (upload_conn_id self) (upload_bucket self) (upload_try self).

(** [asyncio.run(upload_all())] *)
Definition upload_all (self : Operator UploadItem TC) (sched : nat -> nat)
    : list (list (string * pyval)) * shared :=
  run_gather (upload_conn_id self) (upload_bucket self) (upload_try self)
    sched (items self).

(** [R2IndexUploadOperator.execute] *)
Definition upload_execute (self : Operator UploadItem TC) (sched : nat -> nat)
    : io (list pyval) :=
  let '(results, st) := upload_all self sched in
  let errors := List.filter (fun r => eq_str (dict_get r "status") "error") results in
  match errors with
  | _ :: _ =>
      (Raised (AirflowException
                 (str_of_nat (length errors) +:+ "/" +:+ str_of_nat (length results)
                  +:+ " uploads failed")),
       calls st)
  | [] => (comprehension (fun r => subscript r "file_record") results, calls st)
  end.

(** *** R2IndexDownloadOperator *)

Definition download_conn_id (self : Operator DownloadItem TC) (item : DownloadItem)
    : string :=
  opt_or (d_r2index_conn_id item) (r2index_conn_id self).

Definition download_bucket (self : Operator DownloadItem TC) (item : DownloadItem)
    : string :=
  opt_or (d_bucket item) (bucket self).

(** The [try ... except Exception as e] of [download_one] *)
Definition download_try (self : Operator DownloadItem TC) (config : ConnectionConfig)
    (bucket : string) (item : DownloadItem) : total (list (string * pyval)) :=
  (match client_download w config bucket item (transfer_config self) with
   | ClientOk (downloaded_path, file_record) =>
       [("status", PStr "success"); ("path", PStr downloaded_path);
        ("file_record", file_record)]
   | ClientRaised message =>
       [("status", PStr "error"); ("message", PStr message);
        ("source_path", PStr (source_path item))]
   end,
   [EvDownload config bucket item]).

(** [download_one], as resumed by the loop *)
Definition download_one (self : Operator DownloadItem TC) :=
  resume (download_conn_id self) (download_bucket self) (download_try self).

(** [asyncio.run(download_all())] *)
Definition download_all (self : Operator DownloadItem TC) (sched : nat -> nat)
    : list (list (string * pyval)) * shared :=
  run_gather (download_conn_id self) (download_bucket self) (download_try self)
    sched (items self).

(** The element [{"path": r["path"], "file_record": r["file_record"]}] *)
Definition download_entry (r : list (string * pyval)) : outcome pyval :=
  match subscript r "path" with
  | Raised e => Raised e
  | Returned path =>
      match subscript r "file_record" with
      | Raised e => Raised e
      | Returned file_record =>
          Returned (PDict [("path", path); ("file_record", file_record)])
      end
  end.

(** [R2IndexDownloadOperator.execute] *)
Definition download_execute (self : Operator DownloadItem TC) (sched : nat -> nat)
    : io (list pyval) :=
  let '(results, st) := download_all self sched in
  let errors := List.filter (fun r => eq_str (dict_get r "status") "error") results in
  match errors with
  | _ :: _ =>
      (Raised (AirflowException
                 (str_of_nat (length errors) +:+ "/" +:+ str_of_nat (length results)
                  +:+ " downloads failed")),
       calls st)
  | [] => (comprehension download_entry results, calls st)
  end.

End Batch.

End Operators.

(** * Vocabulary of the properties *)

Module Spec.
Import Hook Links Operators.

(** ** The link *)

Definition elaunira_url (id : string) : string :=
  "https://r2index.elaunira.com/files/" +:+ id.

(** ** The vault, one config key at a time *)

(** What asking the vault for one config key comes to, the key taken on its
    own (no cache): no reference to follow; the answer of [get_secret] for
    the path of the reference, with the key to read in it; an exception of
    [get_secret]; or a mapping or reference the code cannot use. *)
Inductive fetch : Type :=
| NoReference
| Fetched (data : option (list (string * pyval))) (key : string)
| FetchRaised (e : exn)
| Unusable.

Definition fetch_key (vault_hook : VaultClient) (secrets : pyval) (config_key : string)
    : fetch :=
  match secrets with
  | PDict kvs =>
      match dict_get kvs config_key with
      | PStr ref =>
          if String.eqb ref "" then NoReference
          else
            let '(path, key) := _parse_secret_ref ref config_key in
            match vault_hook path with
            | Returned data => Fetched data key
            | Raised e => FetchRaised e
            end
      | v => if truthy v then Unusable else NoReference
      end
  | _ => Unusable
  end.

(** The value the key gets: [None] when there is no reference, when the
    vault has no secret at the path, or when the secret lacks the key. *)
Definition fetch_value (f : fetch) : option pyval :=
  match f with
  | NoReference => Some PNone
  | Fetched data key => Some (dict_get (default [] data) key)
  | FetchRaised _ | Unusable => None
  end.

(** The field of the configuration that a config key fills. *)
Definition config_field (config_key : string) (c : ConnectionConfig) : pyval :=
  if String.eqb config_key "r2index_api_url" then index_api_url c
  else if String.eqb config_key "r2index_api_token" then index_api_token c
  else if String.eqb config_key "r2_access_key_id" then r2_access_key_id c
  else if String.eqb config_key "r2_secret_access_key" then r2_secret_access_key c
  else if String.eqb config_key "r2_endpoint_url" then r2_endpoint_url c
  else PNone.

(** Every failed fetch is local to its key: once the hook is built, a
    configuration is returned in which every key whose own fetch has a
    value keeps that value, whatever happened to the fetch of another
    key. *)
Definition key_failures_are_local {TC} (w : World TC)
    (vault_conn_id secrets namespace : pyval) : Prop :=
  forall vault_hook,
    new_VaultHook w vault_conn_id = Returned vault_hook ->
    exists config,
      (_get_config_from_vault w vault_conn_id secrets namespace).1 = Some config
      /\ forall k v,
           k ∈ CONFIG_KEYS ->
           fetch_value (fetch_key vault_hook secrets k) = Some v ->
           config_field k config = v.

(** The entries of [secret_cache] are what the vault returned. *)
Definition cache_ok (vault_hook : VaultClient)
    (secret_cache : gmap string (list (string * pyval))) : Prop :=
  forall path entry,
    secret_cache !! path = Some entry ->
    exists data, vault_hook path = Returned data /\ entry = default [] data.

(** ** The tiers of the configuration

    The chain of the specification (section 4.1 and the design notes), in
    its words: three resolvers, each giving a configuration or none, and the
    first usable result. *)

(** A configuration is usable when its [index_api_url] is not empty. *)
Definition usable (c : ConnectionConfig) : bool := truthy (index_api_url c).

(** The first usable result of the tiers in order; the last tier is taken as
    it is. *)
Fixpoint first_usable (tiers : list (option ConnectionConfig)) (last : ConnectionConfig)
    : ConnectionConfig :=
  match tiers with
  | [] => last
  | Some c :: rest => if usable c then c else first_usable rest last
  | None :: rest => first_usable rest last
  end.

Definition vault_reference (conn : Connection) : pyval :=
  dict_get (extra_dejson conn) "vault_conn_id".

(** The mapping of the connection: a JSON object, or a string to decode. *)
Definition decoded_mapping {TC} (w : World TC) (secrets_raw : pyval) : option pyval :=
  match secrets_raw with
  | PStr text =>
      match json_loads w text with Returned v => Some v | Raised _ => None end
  | v => Some v
  end.

(** Step 2: if the connection (step 1: found in the store) refers to a
    vault, the secrets mapping is required (an object, or a string to
    decode) and the vault resolves it; without a mapping, no
    configuration. *)
Definition vault_tier {TC} (w : World TC) (conn_id : string) : option ConnectionConfig :=
  match get_connection w conn_id with
  | Raised _ => None
  | Returned conn =>
      if truthy (vault_reference conn) then
        let secrets_raw := dict_get (extra_dejson conn) "vault_secrets_mapping" in
        if truthy secrets_raw then
          secrets ← decoded_mapping w secrets_raw;
          (_get_config_from_vault w (vault_reference conn) secrets
             (dict_get (extra_dejson conn) "vault_namespace")).1
        else None
      else None
  end.

(** Step 3: else, the direct fields of the connection. *)
Definition direct_tier {TC} (w : World TC) (conn_id : string) : option ConnectionConfig :=
  match get_connection w conn_id with
  | Raised _ => None
  | Returned conn =>
      if truthy (vault_reference conn) then None
      else
        Some {| index_api_url := of_opt (host conn);
                index_api_token := of_opt (password conn);
                r2_access_key_id := dict_get (extra_dejson conn) "r2_access_key_id";
                r2_secret_access_key := dict_get (extra_dejson conn) "r2_secret_access_key";
                r2_endpoint_url := dict_get (extra_dejson conn) "r2_endpoint_url" |}
  end.

(** The direct fields of a connection that is found, whether it refers to
    a vault or not: the second tier when the three tiers are read as
    successive fallbacks. *)
Definition direct_fields {TC} (w : World TC) (conn_id : string) : option ConnectionConfig :=
  match get_connection w conn_id with
  | Raised _ => None
  | Returned conn =>
      Some {| index_api_url := of_opt (host conn);
              index_api_token := of_opt (password conn);
              r2_access_key_id := dict_get (extra_dejson conn) "r2_access_key_id";
              r2_secret_access_key := dict_get (extra_dejson conn) "r2_secret_access_key";
              r2_endpoint_url := dict_get (extra_dejson conn) "r2_endpoint_url" |}
  end.

(** Step 4: the five environment variables; one that is not set gives [None]. *)
Definition env_tier {TC} (w : World TC) : ConnectionConfig :=
  {| index_api_url := of_opt (environ_get w "R2INDEX_API_URL");
     index_api_token := of_opt (environ_get w "R2INDEX_API_TOKEN");
     r2_access_key_id := of_opt (environ_get w "R2_ACCESS_KEY_ID");
     r2_secret_access_key := of_opt (environ_get w "R2_SECRET_ACCESS_KEY");
     r2_endpoint_url := of_opt (environ_get w "R2_ENDPOINT_URL") |}.

(** The chain with the tiers as successive fallbacks: vault, then the
    direct fields, then the environment. *)
Definition successive_chain {TC} (w : World TC) (conn_id : string) : ConnectionConfig :=
  first_usable [vault_tier w conn_id; direct_fields w conn_id] (env_tier w).

(** The chain the code implements: the direct fields only for a connection
    without vault reference. *)
Definition alternative_chain {TC} (w : World TC) (conn_id : string) : ConnectionConfig :=
  first_usable [vault_tier w conn_id; direct_tier w conn_id] (env_tier w).

(** ** Kinds of calls *)

Definition vault_call (e : event) : bool :=
  match e with
  | EvVaultHook _ | EvGetSecret _ | EvJsonLoads _ => true
  | _ => false
  end.

Definition environ_call (e : event) : bool :=
  match e with EvEnviron _ => true | _ => false end.

Definition client_call (e : event) : bool :=
  match e with EvUpload _ _ _ | EvDownload _ _ _ => true | _ => false end.

(** The connection ids looked up in the connection store, in order.  A
    resolution of a connection id starts with exactly one such lookup. *)
Definition lookups (t : list event) : list string :=
  omap (fun e => match e with EvGetConnection c => Some c | _ => None end) t.

(** ** The batch *)

Section BatchVocabulary.
Context {TC : Type} (w : World TC) {Item : Type}.
Variable conn_id_of : Item -> string.
Variable bucket_of : Item -> string.
Variable attempt : ConnectionConfig -> string -> Item -> total (list (string * pyval)).

(** What a connection id resolves to. *)
Definition resolved (conn_id : string) : ConnectionConfig :=
  (_get_client_config w conn_id).1.

(** The shared state at the start of [execute]. *)
Definition fresh : shared := {| conn_configs := ∅; calls := [] |}.

(** The outcome of an item: what its coroutine returns when it is the only
    one to run, from the fresh state. *)
Definition run_alone (item : Item) : option (list (string * pyval)) :=
  let '(c1, st1) := resume w conn_id_of bucket_of attempt (Created item) fresh in
  let '(c2, _) := resume w conn_id_of bucket_of attempt c1 st1 in
  result_of c2.

(** The same outcome, and the calls of the attempt, read off the client. *)
Definition expected (item : Item) : list (string * pyval) :=
  (attempt (resolved (conn_id_of item)) (bucket_of item) item).1.

Definition expected_calls (item : Item) : list event :=
  (attempt (resolved (conn_id_of item)) (bucket_of item) item).2.

(** The resumptions a coroutine still needs. *)
Definition work (c : coroutine Item) : nat :=
  match c with Created _ => 2 | Suspended _ _ _ => 1 | Finished _ => 0 end.

Definition total_work (ts : list (coroutine Item)) : nat := sum_list (work <$> ts).

(** What holds of a task, of the shared state and of the loop while the
    loop runs. *)
Definition cached (st : shared) (conn_id : string) : Prop :=
  conn_configs st !! conn_id = Some (resolved conn_id).

Definition task_ok (st : shared) (item : Item) (c : coroutine Item) : Prop :=
  match c with
  | Created item' => item' = item
  | Suspended config bucket item' =>
      item' = item /\ config = resolved (conn_id_of item) /\ bucket = bucket_of item
      /\ cached st (conn_id_of item)
  | Finished result => result = expected item /\ cached st (conn_id_of item)
  end.

Definition state_ok (items : list Item) (st : shared) : Prop :=
  (forall c cfg, conn_configs st !! c = Some cfg ->
                 cfg = resolved c /\ exists item, item ∈ items /\ conn_id_of item = c)
  /\ NoDup (lookups (calls st))
  /\ (forall c, c ∈ lookups (calls st) <-> is_Some (conn_configs st !! c))
  /\ (forall e, e ∈ calls st -> client_call e = true ->
                exists item, item ∈ items /\ e ∈ expected_calls item).

Definition loop_ok (items : list Item) (l : loop Item) : Prop :=
  Forall2 (task_ok (state l)) items (tasks l) /\ state_ok items (state l).

End BatchVocabulary.

(** ** The two operators *)

Section OperatorVocabulary.
Context {TC : Type} (w : World TC).

(** The outcome of one item on its own. *)
Definition upload_alone (self : Operator UploadItem TC) (item : UploadItem)
    : option (list (string * pyval)) :=
  run_alone w (upload_conn_id self) (upload_bucket self) (upload_try w self) item.

Definition download_alone (self : Operator DownloadItem TC) (item : DownloadItem)
    : option (list (string * pyval)) :=
  run_alone w (download_conn_id self) (download_bucket self) (download_try w self) item.

(** The client call made for an item: with the configuration its effective
    connection id resolves to, and its effective bucket. *)
Definition upload_call (self : Operator UploadItem TC) (item : UploadItem)
    : client_result pyval :=
  client_upload w (resolved w (upload_conn_id self item)) (upload_bucket self item)
    item (transfer_config self).

Definition download_call (self : Operator DownloadItem TC) (item : DownloadItem)
    : client_result (string * pyval) :=
  client_download w (resolved w (download_conn_id self item)) (download_bucket self item)
    item (transfer_config self).

Definition raised {A} (r : client_result A) : bool :=
  match r with ClientRaised _ => true | ClientOk _ => false end.

(** The result gathered for an item, read off the client call. *)
Definition upload_result (self : Operator UploadItem TC) (item : UploadItem)
    : list (string * pyval) :=
  match upload_call self item with
  | ClientOk file_record => [("status", PStr "success"); ("file_record", file_record)]
  | ClientRaised message =>
      [("status", PStr "error"); ("message", PStr message); ("source", PStr (source item))]
  end.

Definition download_result (self : Operator DownloadItem TC) (item : DownloadItem)
    : list (string * pyval) :=
  match download_call self item with
  | ClientOk (path, file_record) =>
      [("status", PStr "success"); ("path", PStr path); ("file_record", file_record)]
  | ClientRaised message =>
      [("status", PStr "error"); ("message", PStr message);
       ("source_path", PStr (source_path item))]
  end.

(** What [execute] returns for an item whose transfer succeeded. *)
Definition upload_returned (self : Operator UploadItem TC) (item : UploadItem) : pyval :=
  match upload_call self item with
  | ClientOk file_record => file_record
  | ClientRaised _ => PNone
  end.

Definition download_returned (self : Operator DownloadItem TC) (item : DownloadItem)
    : pyval :=
  match download_call self item with
  | ClientOk (path, file_record) =>
      PDict [("path", PStr path); ("file_record", file_record)]
  | ClientRaised _ => PNone
  end.

End OperatorVocabulary.

(** A gathered result is a failure when its status is ["error"]. *)
Definition is_failure (r : list (string * pyval)) : bool :=
  eq_str (dict_get r "status") "error".

Definition has_status (r : list (string * pyval)) : Prop :=
  dict_get r "status" = PStr "success" \/ dict_get r "status" = PStr "error".

(** The batch failure: ["{failed}/{total} {what} failed"]. *)
Definition batch_failure (what : string) (failed total : nat) : exn :=
  AirflowException
    (str_of_nat failed +:+ "/" +:+ str_of_nat total +:+ " " +:+ what +:+ " failed").

(** The returned value as the specification describes it: a sequence whose
    every element is a record with a status, ["success"] or ["error"]. *)
Definition surfaces_every_result (o : outcome (list pyval)) : Prop :=
  exists vs,
    o = Returned vs
    /\ Forall (fun v => exists r, v = PDict r /\ has_status r) vs.

End Spec.

(** * Sample inputs *)

Module Sample.
Import Operators.

(** A connection that refers to a vault and also has direct fields. *)
Definition vault_connection : Connection :=
  {| host := Some "https://direct.example";
     password := Some "direct-token";
     extra_dejson :=
       [("vault_conn_id", PStr "openbao_default");
        ("vault_secrets_mapping",
         PDict [("r2index_api_url", PStr "cloudflare/r2index#api-url");
                ("r2index_api_token", PStr "cloudflare/r2index#api-token");
                ("r2_access_key_id", PStr "cloudflare/r2/airflow#access-key-id")])] |}.

(** The vault has the first secret and not the second. *)
Definition vault : VaultClient :=
  fun path =>
    if String.eqb path "cloudflare/r2index"
    then Returned (Some [("api-url", PStr "https://vault.example"); ("api-token", PStr "s3cr3t")])
    else Returned None.

Definition upload_item (src : string) (conn_id : option string) : UploadItem :=
  {| source := src; category := "acme"; entity := "acme-data"; extension := "csv";
     media_type := "text/csv"; destination_path := "acme/data";
     destination_filename := "data.csv"; destination_version := "v1";
     u_bucket := None; name := None; tags := None; extra := None;
     create_checksum_files := false; u_r2index_conn_id := conn_id |}.

Definition download_item (path : string) (conn_id : option string) : DownloadItem :=
  {| source_path := path; source_filename := "data.csv"; source_version := "v1";
     destination := "/tmp/data.csv"; d_bucket := None; verify_checksum := true;
     overwrite := true; d_r2index_conn_id := conn_id |}.

(** The store knows the connection ["r2index_default"]; the client fails the
    upload of ["/tmp/bad.csv"] and the download of ["acme/bad"]. *)
Definition world : World unit :=
  {| get_connection := fun conn_id =>
       if String.eqb conn_id "r2index_default" then Returned vault_connection
       else Raised (ExternalError "connection not found");
     new_VaultHook := fun _ => Returned vault;
     environ_get := fun var =>
       if String.eqb var "R2INDEX_API_URL" then Some "https://env.example" else None;
     json_loads := fun _ => Raised (ExternalError "not JSON");
     client_upload := fun _ _ item _ =>
       if String.eqb (source item) "/tmp/bad.csv" then ClientRaised "checksum mismatch"
       else ClientOk (PDict [("id", PStr (source item))]);
     client_download := fun _ _ item _ =>
       if String.eqb (source_path item) "acme/bad" then ClientRaised "not found"
       else ClientOk (destination item, PDict [("id", PStr (source_path item))]) |}.

(** A vault that has the first secret and refuses the second path. *)
Definition flaky_vault : VaultClient :=
  fun path =>
    if String.eqb path "cloudflare/r2index"
    then Returned (Some [("api-url", PStr "https://vault.example"); ("api-token", PStr "s3cr3t")])
    else Raised (ExternalError "permission denied").

(** The same world with that vault. *)
Definition flaky_world : World unit :=
  {| get_connection := get_connection world;
     new_VaultHook := fun _ => Returned flaky_vault;
     environ_get := environ_get world;
     json_loads := json_loads world;
     client_upload := client_upload world;
     client_download := client_download world |}.

Definition uploads : Operator UploadItem unit :=
  R2IndexUploadOperator_init "bucket"
    (ItemList [upload_item "/tmp/a.csv" None; upload_item "/tmp/bad.csv" (Some "other");
               upload_item "/tmp/c.csv" (Some "other")])
    None None.

Definition downloads : Operator DownloadItem unit :=
  R2IndexDownloadOperator_init "bucket"
    (ItemList [download_item "acme/a" None; download_item "acme/b" None])
    None None.

Definition failing_downloads : Operator DownloadItem unit :=
  R2IndexDownloadOperator_init "bucket"
    (ItemList [download_item "acme/a" None; download_item "acme/bad" None])
    None None.

(** Two schedules: first come first served, and last ready first. *)
Definition fifo : nat -> nat := fun _ => 0.
Definition lifo : nat -> nat := fun now => 5 - now.

End Sample.

(** * The rest of the provider *)

(** ** hooks/r2index.py: the client of the hook *)

Module HookClient.
Import Hook.

(** The arguments of [R2IndexHook.upload], [download] and [list_files]. *)
Record UploadArgs : Type := {
  up_bucket : string;
  up_source : string;
  up_category : string;
  up_entity : string;
  up_extension : string;
  up_media_type : string;
  up_destination_path : string;
  up_destination_filename : string;
  up_destination_version : string;
  up_name : option string;
  up_tags : option (list string);
  up_extra : option (list (string * pyval));
  up_create_checksum_files : bool;
}.

Record DownloadArgs : Type := {
  down_bucket : string;
  down_source_path : string;
  down_source_filename : string;
  down_source_version : string;
  down_destination : string;
  down_verify_checksum : bool;
}.

Record ListArgs : Type := {
  ls_bucket : option string;
  ls_category : option string;
  ls_entity : option string;
  ls_extension : option string;
  ls_tags : option (list string);
  ls_limit : option Z;
}.

(** The synchronous client [elaunira.r2index.R2IndexClient], outside the
    repository: its constructor and its methods.  A record is given as its
    [model_dump()]; [sync_download] gives [str(downloaded_path)] and the
    record, if the client returned one. *)
Record SyncClient (Client : Type) : Type := {
  new_R2IndexClient : ConnectionConfig -> outcome Client;
  sync_upload : Client -> UploadArgs -> outcome pyval;
  sync_download : Client -> DownloadArgs -> outcome (string * option pyval);
  sync_get : Client -> string -> outcome pyval;
  sync_list_files : Client -> ListArgs -> outcome pyval;
}.
Arguments new_R2IndexClient {Client} _ _.
Arguments sync_upload {Client} _ _ _.
Arguments sync_download {Client} _ _ _.
Arguments sync_get {Client} _ _ _.
Arguments sync_list_files {Client} _ _ _.

(** The calls a method of the hook makes: those of the configuration
    tiers, the construction of the client, the calls of the client. *)
Inductive hook_event : Type :=
| Resolving (e : event)
| NewClient (config : ConnectionConfig)
| ClientUpload (args : UploadArgs)
| ClientDownload (args : DownloadArgs)
| ClientGet (file_id : string)
| ClientListFiles (args : ListArgs).

(** The attributes of an [R2IndexHook]. *)
Record R2IndexHook (Client : Type) : Type := {
  hook_conn_id : string;            (* r2index_conn_id *)
  _client : option Client;
}.
Arguments hook_conn_id {Client} _.
Arguments _client {Client} _.

(** [R2IndexHook.__init__]; [None] is the keyword left to its default. *)
Definition R2IndexHook_init {Client} (r2index_conn_id : option string) : R2IndexHook Client :=
  {| hook_conn_id := default "r2index_default" r2index_conn_id; _client := None |}.

(** A method call: its outcome, the hook after it, the calls it made. *)
Definition method (Client A : Type) : Type :=
  outcome A * R2IndexHook Client * list hook_event.

Section WithClient.
Context {TC Client : Type} (w : World TC) (sc : SyncClient Client).

(** The configuration [get_conn] builds the client from: the connection's,
    or the environment's when that one is [None] or has no
    [index_api_url]. *)
Definition get_conn_config (self : R2IndexHook Client) : total ConnectionConfig :=
  let '(config, t) := _get_config_from_connection w (hook_conn_id self) in
  match config with
  | Some c =>
      if negb (truthy (index_api_url c))
      then let '(c', t') := _get_config_from_env w in (c', t ++ t')
      else (c, t)
  | None => let '(c', t') := _get_config_from_env w in (c', t ++ t')
  end.

(** [R2IndexHook.get_conn] *)
Definition get_conn (self : R2IndexHook Client) : method Client Client :=
  match _client self with
  | Some client => (Returned client, self, [])
  | None =>
      let '(config, t) := get_conn_config self in
      let t := (Resolving <$> t) ++ [NewClient config] in
      match new_R2IndexClient sc config with
      | Raised e => (Raised e, self, t)
      | Returned client =>
          (Returned client,
           {| hook_conn_id := hook_conn_id self; _client := Some client |}, t)
      end
  end.

(** [R2IndexHook.upload] *)
Definition upload (self : R2IndexHook Client) (args : UploadArgs) : method Client pyval :=
  let '(r, self, t) := get_conn self in
  match r with
  | Raised e => (Raised e, self, t)
  | Returned client => (sync_upload sc client args, self, t ++ [ClientUpload args])
  end.

(** [R2IndexHook.download]: [file_record.model_dump()] is called on
    whatever record the client returned. *)
Definition download (self : R2IndexHook Client) (args : DownloadArgs)
    : method Client pyval :=
  let '(r, self, t) := get_conn self in
  match r with
  | Raised e => (Raised e, self, t)
  | Returned client =>
      (match sync_download sc client args with
       | Raised e => Raised e
       | Returned (downloaded_path, file_record) =>
           match file_record with
           | Some dumped =>
               Returned (PDict [("path", PStr downloaded_path); ("file_record", dumped)])
           | None => Raised (BuiltinError AttributeError)
           end
       end,
       self, t ++ [ClientDownload args])
  end.

(** [R2IndexHook.get_file] *)
Definition get_file (self : R2IndexHook Client) (file_id : string) : method Client pyval :=
  let '(r, self, t) := get_conn self in
  match r with
  | Raised e => (Raised e, self, t)
  | Returned client => (sync_get sc client file_id, self, t ++ [ClientGet file_id])
  end.

(** [R2IndexHook.list_files] *)
Definition list_files (self : R2IndexHook Client) (args : ListArgs) : method Client pyval :=
  let '(r, self, t) := get_conn self in
  match r with
  | Raised e => (Raised e, self, t)
  | Returned client => (sync_list_files sc client args, self, t ++ [ClientListFiles args])
  end.

End WithClient.

End HookClient.

(** ** decorators/r2index.py *)

Module Decorators.
Import Operators.

(** A decorated operator: the attributes of the operator it extends, and
    the decorated function with its arguments.  Calling the function gives
    an item or a list of items, or raises. *)
Record Decorated (Item TC : Type) : Type := {
  python_callable : list pyval -> list (string * pyval) -> outcome (items_arg Item);
  op_args : list pyval;
  op_kwargs : list (string * pyval);
  operator : Operator Item TC;
}.
Arguments python_callable {Item TC} _ _ _.
Arguments op_args {Item TC} _.
Arguments op_kwargs {Item TC} _.
Arguments operator {Item TC} _.

(** [_R2IndexUploadDecoratedOperator.__init__]: [kwargs["items"]] is set to
    the empty list, whatever the caller gave, before the constructor of
    [R2IndexUploadOperator] runs. *)
Definition upload_decorated_init {TC}
    (python_callable : list pyval -> list (string * pyval) -> outcome (items_arg UploadItem))
    (op_args : option (list pyval)) (op_kwargs : option (list (string * pyval)))
    (bucket : string) (items : option (items_arg UploadItem)) (conn_id : option string)
    (transfer_config : option TC) : Decorated UploadItem TC :=
  {| python_callable := python_callable;
     op_args := default [] op_args;
     op_kwargs := default [] op_kwargs;
     operator := R2IndexUploadOperator_init bucket (ItemList []) conn_id transfer_config |}.

(** [_R2IndexDownloadDecoratedOperator.__init__] *)
Definition download_decorated_init {TC}
    (python_callable : list pyval -> list (string * pyval) -> outcome (items_arg DownloadItem))
    (op_args : option (list pyval)) (op_kwargs : option (list (string * pyval)))
    (bucket : string) (items : option (items_arg DownloadItem)) (conn_id : option string)
    (transfer_config : option TC) : Decorated DownloadItem TC :=
  {| python_callable := python_callable;
     op_args := default [] op_args;
     op_kwargs := default [] op_kwargs;
     operator := R2IndexDownloadOperator_init bucket (ItemList []) conn_id transfer_config |}.

(** [self.items = [items] if isinstance(items, Item) else items] *)
Definition with_items {Item TC} (self : Decorated Item TC) (items : items_arg Item)
    : Decorated Item TC :=
  {| python_callable := python_callable self;
     op_args := op_args self;
     op_kwargs := op_kwargs self;
     operator :=
       {| bucket := bucket (operator self);
          items := match items with OneItem item => [item] | ItemList l => l end;
          r2index_conn_id := r2index_conn_id (operator self);
          transfer_config := transfer_config (operator self) |} |}.

Section WithWorld.
Context {TC : Type} (w : World TC).

(** [_R2IndexUploadDecoratedOperator.execute]: the outcome with the calls
    made, and the operator after the call. *)
Definition upload_decorated_execute (self : Decorated UploadItem TC) (sched : nat -> nat)
    : io (list pyval) * Decorated UploadItem TC :=
  match python_callable self (op_args self) (op_kwargs self) with
  | Raised e => ((Raised e, []), self)
  | Returned items =>
      let self := with_items self items in
      (upload_execute w (operator self) sched, self)
  end.

(** [_R2IndexDownloadDecoratedOperator.execute] *)
Definition download_decorated_execute (self : Decorated DownloadItem TC)
    (sched : nat -> nat) : io (list pyval) * Decorated DownloadItem TC :=
  match python_callable self (op_args self) (op_kwargs self) with
  | Raised e => ((Raised e, []), self)
  | Returned items =>
      let self := with_items self items in
      (download_execute w (operator self) sched, self)
  end.

End WithWorld.

End Decorators.

(** ** Vocabulary of the further properties *)

Module More.
Import Hook Operators Spec.

(** The paths fetched from the vault, in order. *)
Definition fetched (t : list event) : list string :=
  omap (fun e => match e with EvGetSecret path => Some path | _ => None end) t.

(** The path the reference of a config key points to, when the mapping
    has a usable reference for the key. *)
Definition reference_path (secrets : pyval) (config_key : string) : option string :=
  match secrets with
  | PDict kvs =>
      match dict_get kvs config_key with
      | PStr ref =>
          if String.eqb ref "" then None else Some (_parse_secret_ref ref config_key).1
      | _ => None
      end
  | _ => None
  end.

(** The five calls of [get_secret_value] in [_get_config_from_vault], as a
    traversal of the keys. *)
Fixpoint get_secret_values (vault_hook : VaultClient) (secrets : pyval)
    (config_keys : list string) (secret_cache : gmap string (list (string * pyval)))
    : io (list pyval) :=
  match config_keys with
  | [] => ret []
  | config_key :: rest =>
      let* (v, secret_cache) :=
        get_secret_value vault_hook secrets config_key secret_cache in
      let* vs := get_secret_values vault_hook secrets rest secret_cache in
      ret (v :: vs)
  end.

(** The calls of the resolutions of connection ids, one resolution after
    the other. *)
Definition resolution_calls {TC} (w : World TC) (conn_ids : list string) : list event :=
  concat ((fun conn_id => (_get_client_config w conn_id).2) <$> conn_ids).

Section TraceVocabulary.
Context {TC : Type} (w : World TC) {Item : Type}.
Variable conn_id_of : Item -> string.
Variable bucket_of : Item -> string.
Variable attempt : ConnectionConfig -> string -> Item -> total (list (string * pyval)).

(** The client calls of the tasks that have finished. *)
Definition finished_calls (items : list Item) (ts : list (coroutine Item)) : list event :=
  concat (zip_with (fun item c =>
                      if unfinished c then []
                      else expected_calls w conn_id_of bucket_of attempt item)
            items ts).

End TraceVocabulary.

(** Calls of methods of the hook, one after the other. *)
Inductive request : Type :=
| Upload (args : HookClient.UploadArgs)
| Download (args : HookClient.DownloadArgs)
| GetFile (file_id : string)
| ListFiles (args : HookClient.ListArgs).

Section Requests.
Context {TC Client : Type} (w : World TC) (sc : HookClient.SyncClient Client).

Definition perform (self : HookClient.R2IndexHook Client) (r : request)
    : HookClient.method Client pyval :=
  match r with
  | Upload args => HookClient.upload w sc self args
  | Download args => HookClient.download w sc self args
  | GetFile file_id => HookClient.get_file w sc self file_id
  | ListFiles args => HookClient.list_files w sc self args
  end.

(** The outcomes of the calls, the hook after the last, and all the calls
    made. *)
Fixpoint perform_all (self : HookClient.R2IndexHook Client) (rs : list request)
    : list (outcome pyval) * HookClient.R2IndexHook Client * list HookClient.hook_event :=
  match rs with
  | [] => ([], self, [])
  | r :: rest =>
      let '(o, self, t) := perform self r in
      let '(os, self, t') := perform_all self rest in
      (o :: os, self, t ++ t')
  end.

End Requests.

(** The call a method makes to the client. *)
Definition client_event (r : request) : HookClient.hook_event :=
  match r with
  | Upload args => HookClient.ClientUpload args
  | Download args => HookClient.ClientDownload args
  | GetFile file_id => HookClient.ClientGet file_id
  | ListFiles args => HookClient.ClientListFiles args
  end.


(** The world with another connection store: one that holds [conn] under
    every id. *)
Definition with_connection {TC} (w : World TC) (conn : Connection) : World TC :=
  {| get_connection := fun _ => Returned conn;
     new_VaultHook := new_VaultHook w;
     environ_get := environ_get w;
     json_loads := json_loads w;
     client_upload := client_upload w;
     client_download := client_download w |}.

End More.

(** * Further sample inputs *)

Module MoreSample.
Import Operators HookClient Decorators More.

(** A connection whose secrets mapping is a JSON string. *)
Definition json_connection : Connection :=
  {| host := None;
     password := None;
     extra_dejson :=
       [("vault_conn_id", PStr "openbao_default");
        ("vault_namespace", PStr "elaunira/production");
        ("vault_secrets_mapping", PStr "{...}")] |}.

(** The same connection for another namespace. *)
Definition other_namespace : Connection :=
  {| host := None;
     password := None;
     extra_dejson :=
       [("vault_conn_id", PStr "openbao_default");
        ("vault_namespace", PStr "elaunira/staging");
        ("vault_secrets_mapping", PStr "{...}")] |}.

(** A world whose store holds [json_connection] and whose decoder reads
    the text ["{...}"] as a mapping of the first two keys. *)
Definition json_world : World unit :=
  {| get_connection := fun _ => Returned json_connection;
     new_VaultHook := fun _ => Returned Sample.vault;
     environ_get := fun _ => None;
     json_loads := fun text =>
       if String.eqb text "{...}"
       then Returned (PDict [("r2index_api_url", PStr "cloudflare/r2index#api-url");
                             ("r2index_api_token", PStr "cloudflare/r2index#api-token")])
       else Raised (ExternalError "not JSON");
     client_upload := client_upload Sample.world;
     client_download := client_download Sample.world |}.

(** A synchronous client that is its configuration; it cannot be built
    without an API URL, and it has no record for the path ["acme/raw"]. *)
Definition sync_client : SyncClient ConnectionConfig :=
  {| new_R2IndexClient := fun config =>
       if truthy (index_api_url config) then Returned config
       else Raised (ExternalError "index_api_url is required");
     sync_upload := fun _ args => Returned (PDict [("id", PStr (up_source args))]);
     sync_download := fun _ args =>
       if String.eqb (down_source_path args) "acme/raw"
       then Returned (down_destination args, None)
       else Returned (down_destination args,
                      Some (PDict [("id", PStr (down_source_path args))]));
     sync_get := fun _ file_id => Returned (PDict [("id", PStr file_id)]);
     sync_list_files := fun _ _ => Returned (PDict [("files", PList [])]) |}.

(** A world without connection and without environment. *)
Definition bare_world : World unit :=
  {| get_connection := fun _ => Raised (ExternalError "connection not found");
     new_VaultHook := new_VaultHook Sample.world;
     environ_get := fun _ => None;
     json_loads := json_loads Sample.world;
     client_upload := client_upload Sample.world;
     client_download := client_download Sample.world |}.

Definition download_args (path : string) : DownloadArgs :=
  {| down_bucket := "bucket"; down_source_path := path; down_source_filename := "data.csv";
     down_source_version := "v1"; down_destination := "/tmp/data.csv";
     down_verify_checksum := true |}.

(** A decorated function that returns one item. *)
Definition prepare_upload (args : list pyval) (kwargs : list (string * pyval))
    : outcome (items_arg UploadItem) :=
  Returned (OneItem (Sample.upload_item "/tmp/a.csv" None)).

(** A hook that holds a client. *)
Definition built_hook : R2IndexHook ConnectionConfig :=
  {| hook_conn_id := "r2index_default"; _client := Some (Spec.env_tier Sample.world) |}.

(** A secrets mapping whose reference for the API URL is a number. *)
Definition number_mapping : list (string * pyval) := [("r2index_api_url", PInt 7)].

(** A persisted value whose file record is [None]. *)
Definition no_record : list (string * pyval) :=
  [("status", PStr "success"); ("file_record", PNone)].

End MoreSample.

(** * Properties *)

(** ** Strings and dicts *)

Module PyFacts.

Lemma char_in_append c l r :
  char_in c (l +:+ r) = char_in c l || char_in c r.
Proof.
  induction l as [|a l IH]; simpl; [done|].
  rewrite IH. by rewrite orb_assoc.
Qed.

Lemma rsplit1_absent c s : char_in c s = false -> rsplit1 c s = None.
Proof.
  induction s as [|a s IH]; simpl; [done|].
  intros [Ha Hs]%orb_false_elim. by rewrite (IH Hs), Ha.
Qed.

(** [rsplit1] cuts at the last occurrence: the right part has none. *)
Lemma rsplit1_last c l r :
  char_in c r = false -> rsplit1 c (l +:+ String c r) = Some (l, r).
Proof.
  intros Hr. induction l as [|a l IH]; simpl.
  - by rewrite (rsplit1_absent _ _ Hr), Ascii.eqb_refl.
  - by rewrite IH.
Qed.

Lemma rsplit1_sound c s l r :
  rsplit1 c s = Some (l, r) -> s = l +:+ String c r /\ char_in c r = false.
Proof.
  revert l. induction s as [|a s IH]; simpl; intros l H; [done|].
  destruct (rsplit1 c s) as [[l' r']|] eqn:Hs.
  - injection H as <- <-. destruct (IH l' eq_refl) as [-> Hr]. done.
  - destruct (Ascii.eqb a c) eqn:Ha; [|done].
    injection H as <- <-. apply Ascii.eqb_eq in Ha as ->. split; [done|].
    destruct (char_in c s) eqn:Hin; [|done].
    exfalso. clear IH. induction s as [|b s IHs]; simpl in *; [done|].
    destruct (rsplit1 c s) as [[??]|]; [done|].
    destruct (Ascii.eqb b c); [done|]. simpl in Hin. auto.
Qed.

Lemma rsplit1_present c s :
  char_in c s = true -> exists l r, rsplit1 c s = Some (l, r).
Proof.
  induction s as [|a s IH]; simpl; [done|].
  destruct (char_in c s).
  - destruct IH as (l & r & ->); eauto.
  - rewrite orb_false_r. intros ->.
    destruct (rsplit1 c s) as [[??]|]; eauto.
Qed.

Lemma assoc_dict_get kvs k v : assoc k kvs = Some v -> dict_get kvs k = v.
Proof. unfold dict_get. by intros ->. Qed.

Lemma string_eqb_empty s : String.eqb s "" = false <-> s <> "".
Proof. by rewrite String.eqb_neq. Qed.

Lemma truthy_str s : s <> "" -> truthy (PStr s) = true.
Proof. simpl. by intros ->%string_eqb_empty. Qed.

End PyFacts.

(** ** Secret references *)

Module HookProps.
Import Hook PyFacts.

(** C9.  [_parse_secret_ref] splits a reference at its last "#": the text
    before it is the path, the text after it (which holds no "#") is the
    key.  A reference without "#" is the path itself, and the key is the
    config key being resolved.  The two references of the specification
    parse as it says. *)
Theorem parse_secret_ref_splits_at_last_hash (secret_ref default_key : string) :
  (forall path key,
      secret_ref = path +:+ "#" +:+ key -> char_in "#" key = false ->
      _parse_secret_ref secret_ref default_key = (path, key))
  /\ (char_in "#" secret_ref = true ->
      exists path key,
        _parse_secret_ref secret_ref default_key = (path, key)
        /\ secret_ref = path +:+ "#" +:+ key /\ char_in "#" key = false)
  /\ (char_in "#" secret_ref = false ->
      _parse_secret_ref secret_ref default_key = (secret_ref, default_key))
  /\ _parse_secret_ref "cloudflare/r2index#api-url" default_key
     = ("cloudflare/r2index", "api-url")
  /\ _parse_secret_ref "cloudflare/r2index" "r2index_api_url"
     = ("cloudflare/r2index", "r2index_api_url").
Proof.
  unfold _parse_secret_ref. repeat split.
  - intros path key -> Hkey.
    change ("#" +:+ key) with (String "#" key).
    rewrite char_in_append. simpl. rewrite orb_true_r.
    by rewrite (rsplit1_last "#" path key Hkey).
  - intros Hin. rewrite Hin.
    destruct (rsplit1_present _ _ Hin) as (l & r & Hsplit). rewrite Hsplit.
    exists l, r. by destruct (rsplit1_sound _ _ _ _ Hsplit).
  - by intros ->.
Qed.

End HookProps.

(** ** The file link *)

Module LinkProps.
Import Links Spec PyFacts.

(** C8, as the specification words it, fails: the link of [{"id":
    "abc123"}] is not under [r2index.example.com]. *)
Lemma get_link_is_not_under_example_com :
  get_link (PDict [("id", PStr "abc123")])
  <> Some (Returned "https://r2index.example.com/files/abc123").
Proof. vm_compute. discriminate. Qed.

(** C8, amended.  The link is [https://r2index.elaunira.com/files/{id}]
    when the persisted value is a dict with a non-empty string under [id],
    or, [id] being absent or falsy, with a dict under [file_record] that
    has one; it is the empty string when the value is not a dict, is the
    empty dict, or has neither identifier, [file_record] being absent or a
    dict. *)
Theorem get_link_elaunira (kvs : list (string * pyval)) :
  (forall id, dict_get kvs "id" = PStr id -> id <> "" ->
              get_link (PDict kvs) = Some (Returned (elaunira_url id)))
  /\ (forall record id,
         truthy (dict_get kvs "id") = false ->
         assoc "file_record" kvs = Some (PDict record) ->
         dict_get record "id" = PStr id -> id <> "" ->
         get_link (PDict kvs) = Some (Returned (elaunira_url id)))
  /\ (truthy (dict_get kvs "id") = false ->
      assoc "file_record" kvs = None
      \/ (exists record, assoc "file_record" kvs = Some (PDict record)
                         /\ truthy (dict_get record "id") = false) ->
      get_link (PDict kvs) = Some (Returned ""))
  /\ get_link (PDict []) = Some (Returned "")
  /\ get_link (PDict [("id", PStr "abc123")])
     = Some (Returned "https://r2index.elaunira.com/files/abc123")
  /\ get_link (PDict [("file_record", PDict [("id", PStr "xyz")])])
     = Some (Returned "https://r2index.elaunira.com/files/xyz")
  /\ (forall v, (forall d, v <> PDict d) -> get_link v = Some (Returned "")).
Proof.
  repeat split; try reflexivity.
  - intros id Hid Hne. unfold get_link.
    assert (Hk : truthy (PDict kvs) = true).
    { destruct kvs; [by unfold dict_get in Hid|done]. }
    rewrite Hk, Hid, (truthy_str _ Hne). done.
  - intros record id Hno Hrec Hid Hne. unfold get_link.
    assert (Hk : truthy (PDict kvs) = true) by (by destruct kvs).
    rewrite Hk, Hno, Hrec. simpl. rewrite Hid, (truthy_str _ Hne). done.
  - intros Hno Hrec. unfold get_link.
    destruct (truthy (PDict kvs)); [|done]. rewrite Hno.
    destruct Hrec as [->|(record & -> & Hid)]; simpl; [done|].
    by rewrite Hid.
  - intros v Hv. destruct v; try done. by destruct (Hv kvs0).
Qed.

End LinkProps.

(** ** The vault tier *)

Module VaultProps.
Import Hook Spec PyFacts.

Lemma cache_ok_empty vault_hook : cache_ok vault_hook ∅.
Proof. intros path entry. by rewrite lookup_empty. Qed.

Lemma cache_ok_insert vault_hook secret_cache path data :
  cache_ok vault_hook secret_cache ->
  vault_hook path = Returned data ->
  cache_ok vault_hook (<[path := default [] data]> secret_cache).
Proof.
  intros Hok Hdata path' entry. rewrite lookup_insert.
  case_decide as Hp; [|by apply Hok].
  subst path'. intros [= <-]. eauto.
Qed.

(** One call of [get_secret_value]: with a cache that holds what the vault
    returned, it gives the value of the key fetched on its own, and raises
    exactly when that fetch has no value. *)
Lemma get_secret_value_fetch vault_hook secrets config_key secret_cache :
  cache_ok vault_hook secret_cache ->
  match fetch_value (fetch_key vault_hook secrets config_key) with
  | Some v =>
      exists secret_cache' t,
        get_secret_value vault_hook secrets config_key secret_cache
        = (Returned (v, secret_cache'), t)
        /\ cache_ok vault_hook secret_cache'
  | None =>
      exists e t,
        get_secret_value vault_hook secrets config_key secret_cache = (Raised e, t)
  end.
Proof.
  intros Hok. unfold get_secret_value, fetch_key, secrets_get.
  destruct secrets as [| | | |xs|kvs]; simpl; eauto.
  destruct (dict_get kvs config_key) as [|b|n|ref|xs|d] eqn:Href; simpl.
  - eauto.
  - destruct b; simpl; eauto.
  - destruct (n =? 0)%Z; simpl; eauto.
  - destruct (String.eqb ref ""); simpl; [eauto|].
    destruct (_parse_secret_ref ref config_key) as [path key].
    destruct (secret_cache !! path) as [entry|] eqn:Hcache; simpl.
    + destruct (Hok _ _ Hcache) as (data & -> & ->). simpl. eauto.
    + destruct (vault_hook path) as [data|e] eqn:Hfetch; simpl; [|eauto].
      eexists _, _. split; [done|]. by apply cache_ok_insert.
  - destruct xs; simpl; eauto.
  - destruct d; simpl; eauto.
Qed.

(** Advance the vault resolution by one [get_secret_value]. *)
Ltac fetch_next vault_hook secrets config_key Hok :=
  let H := fresh "Hfetch" in
  let v := fresh "v" in
  pose proof (get_secret_value_fetch vault_hook secrets config_key _ Hok) as H;
  destruct (fetch_value (fetch_key vault_hook secrets config_key)) as [v|];
  [ let c := fresh "cache" in
    let t := fresh "t" in
    let Hc := fresh "Hcache" in
    destruct H as (c & t & -> & Hc); clear Hok; rename Hc into Hok
  | let e := fresh "e" in
    let t := fresh "t" in
    destruct H as (e & t & ->) ].

(** The configuration the vault tier returns, in one equation: no
    configuration when the hook cannot be built or some key has no value,
    else the five values, each fetched on its own. *)
Lemma get_config_from_vault_value {TC} (w : World TC) vault_conn_id secrets namespace :
  (_get_config_from_vault w vault_conn_id secrets namespace).1 =
  match new_VaultHook w vault_conn_id with
  | Raised _ => None
  | Returned vault_hook =>
      url ← fetch_value (fetch_key vault_hook secrets "r2index_api_url");
      token ← fetch_value (fetch_key vault_hook secrets "r2index_api_token");
      key_id ← fetch_value (fetch_key vault_hook secrets "r2_access_key_id");
      secret ← fetch_value (fetch_key vault_hook secrets "r2_secret_access_key");
      endpoint ← fetch_value (fetch_key vault_hook secrets "r2_endpoint_url");
      Some {| index_api_url := url;
              index_api_token := token;
              r2_access_key_id := key_id;
              r2_secret_access_key := secret;
              r2_endpoint_url := endpoint |}
  end.
Proof.
  unfold _get_config_from_vault, try_except, bind, call.
  destruct (new_VaultHook w vault_conn_id) as [vault_hook|e]; [|done].
  pose proof (cache_ok_empty vault_hook) as Hok.
  fetch_next vault_hook secrets "r2index_api_url" Hok; [|done].
  fetch_next vault_hook secrets "r2index_api_token" Hok; [|done].
  fetch_next vault_hook secrets "r2_access_key_id" Hok; [|done].
  fetch_next vault_hook secrets "r2_secret_access_key" Hok; [|done].
  fetch_next vault_hook secrets "r2_endpoint_url" Hok; [|done].
  done.
Qed.

(** C5, as the specification words it, fails for a fetch that fails by
    raising: the vault has the secret of the API URL and refuses the path of
    the access key id; no configuration is returned, so the API URL is
    lost with it. *)
Lemma one_raising_fetch_loses_every_key :
  let secrets := dict_get (extra_dejson Sample.vault_connection) "vault_secrets_mapping" in
  fetch_value (fetch_key Sample.flaky_vault secrets "r2index_api_url")
  = Some (PStr "https://vault.example")
  /\ fetch_key Sample.flaky_vault secrets "r2_access_key_id"
     = FetchRaised (ExternalError "permission denied")
  /\ (_get_config_from_vault Sample.flaky_world (PStr "openbao_default") secrets PNone).1
     = None
  /\ ~ key_failures_are_local Sample.flaky_world (PStr "openbao_default") secrets PNone.
Proof.
  repeat split.
  intros Hlocal. by destruct (Hlocal Sample.flaky_vault eq_refl) as (config & Hconfig & _).
Qed.

(** C5, amended.  In the vault resolution, a config key whose secret is
    not to be had without any call raising (no secret at its path:
    [get_secret] returns [None]; or a secret without the key) is absent,
    [None], in the configuration, and it alone: as long as no call raises,
    a configuration is returned and each of its five values is what the
    vault has for that key, whatever the vault has for the other keys.  An
    exception from the vault (building the hook raises, or the
    [get_secret] call of any one key raises) makes the resolution return no
    configuration; the exception is not propagated, the call returns. *)
Theorem vault_missing_key_is_local_backend_error_is_caught
    {TC} (w : World TC) (vault_conn_id secrets namespace : pyval) :
  (forall vault_hook,
      new_VaultHook w vault_conn_id = Returned vault_hook ->
      Forall (fun k => is_Some (fetch_value (fetch_key vault_hook secrets k))) CONFIG_KEYS ->
      exists config,
        (_get_config_from_vault w vault_conn_id secrets namespace).1 = Some config
        /\ forall k, k ∈ CONFIG_KEYS ->
             fetch_value (fetch_key vault_hook secrets k) = Some (config_field k config)
             /\ (forall key, fetch_key vault_hook secrets k = Fetched None key ->
                             config_field k config = PNone)
             /\ (forall data key,
                    fetch_key vault_hook secrets k = Fetched (Some data) key ->
                    config_field k config = dict_get data key))
  /\ (forall e,
        new_VaultHook w vault_conn_id = Raised e ->
        _get_config_from_vault w vault_conn_id secrets namespace
        = (None, [EvVaultHook vault_conn_id]))
  /\ (forall vault_hook k e,
        new_VaultHook w vault_conn_id = Returned vault_hook ->
        k ∈ CONFIG_KEYS ->
        fetch_key vault_hook secrets k = FetchRaised e ->
        (_get_config_from_vault w vault_conn_id secrets namespace).1 = None).
Proof.
  split; [|split].
  - intros vault_hook Hhook Hall.
    rewrite get_config_from_vault_value, Hhook.
    unfold CONFIG_KEYS in *. repeat setoid_rewrite Forall_cons in Hall.
    destruct Hall as ([url Hurl] & [token Htoken] & [key_id Hkey_id]
                      & [secret Hsecret] & [endpoint Hendpoint] & _).
    rewrite Hurl, Htoken, Hkey_id, Hsecret, Hendpoint. simpl.
    eexists. split; [done|].
    intros k Hk.
    assert (Hval : fetch_value (fetch_key vault_hook secrets k)
                   = Some (config_field k
                             {| index_api_url := url; index_api_token := token;
                                r2_access_key_id := key_id; r2_secret_access_key := secret;
                                r2_endpoint_url := endpoint |})).
    { repeat (apply elem_of_cons in Hk as [->|Hk]; [done|]).
      by apply elem_of_nil in Hk. }
    split; [done|]. split.
    + intros key Hkey. rewrite Hkey in Hval. by injection Hval as <-.
    + intros data key Hkey. rewrite Hkey in Hval. by injection Hval as <-.
  - intros e He. unfold _get_config_from_vault, try_except, bind, call.
    by rewrite He.
  - intros vault_hook k e Hhook Hk Hraised.
    rewrite get_config_from_vault_value, Hhook.
    assert (Hnone : fetch_value (fetch_key vault_hook secrets k) = None)
      by (by rewrite Hraised).
    unfold CONFIG_KEYS in Hk.
    repeat (apply elem_of_cons in Hk as [->|Hk];
            [ rewrite Hnone;
              repeat match goal with
                     | |- context [fetch_value ?f] =>
                         lazymatch f with
                         | fetch_key _ _ _ => destruct (fetch_value f); simpl; try done
                         end
                     end; done |]).
    by apply elem_of_nil in Hk.
Qed.

End VaultProps.

(** ** The tiers of the configuration *)

Module ConfigProps.
Import Hook Operators Spec PyFacts VaultProps.

Lemma bind_calls {A B} (P : event -> Prop) (m : io A) (f : A -> io B) :
  Forall P m.2 -> (forall a, Forall P (f a).2) -> Forall P (bind m f).2.
Proof.
  intros Hm Hf. destruct m as [[a|e] t]; simpl in *; [|done].
  specialize (Hf a). destruct (f a) as [r t']. simpl in *.
  by apply Forall_app.
Qed.

Lemma try_except_calls {A} (P : event -> Prop) (m : io A) (h : exn -> total A) :
  Forall P m.2 -> (forall e, Forall P (h e).2) -> Forall P (try_except m h).2.
Proof.
  intros Hm Hh. destruct m as [[a|e] t]; simpl in *; [done|].
  specialize (Hh e). destruct (h e) as [a t']. simpl in *.
  by apply Forall_app.
Qed.

Ltac no_calls := by (simpl; apply Forall_nil).
Ltac one_call := by (simpl; apply Forall_singleton).

(** Every call of the vault tier is a call to the vault or the JSON decoder. *)
Lemma get_secret_value_calls vault_hook secrets config_key secret_cache :
  Forall (fun e => vault_call e = true)
    (get_secret_value vault_hook secrets config_key secret_cache).2.
Proof.
  unfold get_secret_value, secrets_get.
  apply bind_calls.
  - destruct secrets; no_calls.
  - intros ref. destruct (negb (truthy ref)); [no_calls|].
    destruct ref; try no_calls.
    destruct (_parse_secret_ref s config_key) as [path key].
    apply bind_calls; [|intros []; no_calls].
    destruct (secret_cache !! path); [no_calls|].
    apply bind_calls; [one_call|intros; no_calls].
Qed.

Lemma get_config_from_vault_calls {TC} (w : World TC) vault_conn_id secrets namespace :
  Forall (fun e => vault_call e = true)
    (_get_config_from_vault w vault_conn_id secrets namespace).2.
Proof.
  unfold _get_config_from_vault.
  apply try_except_calls; [|intros; no_calls].
  apply bind_calls; [one_call|]. intros vault_hook.
  repeat (apply bind_calls; [apply get_secret_value_calls|]; intros [? ?]).
  no_calls.
Qed.

Lemma bind_call_calls {A B} ev (r : outcome A) (f : A -> io B) :
  (bind (call ev r) f).2
  = ev :: match r with Returned a => (f a).2 | Raised _ => [] end.
Proof. destruct r as [a|e]; simpl; [|done]. by destruct (f a). Qed.

Lemma try_except_none_calls {A} (m : io (option A)) :
  (try_except m (fun _ => (None, []))).2 = m.2.
Proof. destruct m as [[a|e] t]; simpl; [done|]. by rewrite app_nil_r. Qed.

Lemma get_config_from_connection_calls {TC} (w : World TC) conn_id :
  exists t,
    (_get_config_from_connection w conn_id).2 = EvGetConnection conn_id :: t
    /\ Forall (fun e => vault_call e = true) t.
Proof.
  unfold _get_config_from_connection.
  rewrite try_except_none_calls, bind_call_calls.
  eexists. split; [done|].
  destruct (get_connection w conn_id) as [conn|e]; [|no_calls].
  destruct (truthy _); [|no_calls]. destruct (negb _); [no_calls|].
  apply bind_calls.
  - destruct (dict_get _ "vault_secrets_mapping"); try no_calls. one_call.
  - intros secrets. apply get_config_from_vault_calls.
Qed.

Lemma bind_call_value {A B} ev (r : outcome A) (f : A -> io B) :
  (bind (call ev r) f).1
  = match r with Returned a => (f a).1 | Raised e => Raised e end.
Proof. destruct r as [a|e]; simpl; [|done]. by destruct (f a). Qed.

Lemma bind_ret_value {A B} (a : A) (f : A -> io B) : (bind (ret a) f).1 = (f a).1.
Proof. simpl. by destruct (f a). Qed.

Lemma try_except_none_value {A} (m : io (option A)) :
  (try_except m (fun _ => (None, []))).1
  = match m.1 with Returned a => a | Raised _ => None end.
Proof. by destruct m as [[a|e] t]. Qed.

Lemma get_config_from_connection_tiers {TC} (w : World TC) conn_id :
  (_get_config_from_connection w conn_id).1
  = match vault_tier w conn_id with
    | Some c => Some c
    | None => direct_tier w conn_id
    end.
Proof.
  unfold _get_config_from_connection, vault_tier, direct_tier, vault_reference.
  rewrite try_except_none_value, bind_call_value.
  destruct (get_connection w conn_id) as [conn|e]; [|done].
  destruct (truthy (dict_get (extra_dejson conn) "vault_conn_id")); [|done].
  destruct (truthy (dict_get (extra_dejson conn) "vault_secrets_mapping")); [|done].
  cbn [negb]. unfold decoded_mapping.
  destruct (dict_get (extra_dejson conn) "vault_secrets_mapping") as [| | |text| |];
    rewrite ?bind_ret_value, ?bind_call_value; simpl;
    try (by destruct (_get_config_from_vault _ _ _ _).1).
  destruct (json_loads w text); simpl; [|done].
  by destruct (_get_config_from_vault _ _ _ _).1.
Qed.

Lemma get_config_from_env_value {TC} (w : World TC) :
  (_get_config_from_env w).1 = env_tier w.
Proof. done. Qed.

Lemma get_client_config_value {TC} (w : World TC) conn_id :
  (_get_client_config w conn_id).1
  = match (_get_config_from_connection w conn_id).1 with
    | Some c => if usable c then c else env_tier w
    | None => env_tier w
    end.
Proof.
  unfold _get_client_config, usable.
  destruct (_get_config_from_connection w conn_id) as [[c|] t]; simpl; [|done].
  by destruct (truthy (index_api_url c)).
Qed.

Lemma get_client_config_calls {TC} (w : World TC) conn_id :
  (_get_client_config w conn_id).2
  = (_get_config_from_connection w conn_id).2
    ++ match (_get_config_from_connection w conn_id).1 with
       | Some c => if usable c then [] else (_get_config_from_env w).2
       | None => (_get_config_from_env w).2
       end.
Proof.
  unfold _get_client_config, usable.
  destruct (_get_config_from_connection w conn_id) as [[c|] t]; simpl; [|done].
  destruct (truthy (index_api_url c)); simpl; [|done]. by rewrite app_nil_r.
Qed.

(** C4, as the specification words it, fails: the tiers are not successive
    fallbacks.  The connection refers to a vault that yields nothing, and
    has usable direct fields; the result is the environment's
    configuration, not the direct fields. *)
Lemma direct_fields_are_no_fallback_for_the_vault :
  vault_tier Sample.flaky_world "r2index_default" = None
  /\ index_api_url (successive_chain Sample.flaky_world "r2index_default")
     = PStr "https://direct.example"
  /\ index_api_url (_get_client_config Sample.flaky_world "r2index_default").1
     = PStr "https://env.example"
  /\ (_get_client_config Sample.flaky_world "r2index_default").1
     <> successive_chain Sample.flaky_world "r2index_default".
Proof. repeat split. vm_compute. discriminate. Qed.

(** C4, amended.  The configuration of a connection id is the first usable
    result (non-empty [index_api_url]) of the tiers in order, the vault and
    the direct fields being alternatives: the vault, for a connection that
    refers to one; the direct fields, only for a connection that refers to
    none; then the environment variables.  With a vault reference the
    usable vault values are the result, whatever the direct fields hold,
    and the direct fields are not read even when the vault yields nothing
    usable.  The environment is read exactly when the connection gave no
    configuration or one with an empty [index_api_url], and it is then the
    result; reading it cannot fail, and a variable that is not set gives
    [None]. *)
Theorem config_resolution_is_a_tier_chain {TC} (w : World TC) (conn_id : string) :
  (_get_client_config w conn_id).1 = alternative_chain w conn_id
  /\ (forall conn,
        get_connection w conn_id = Returned conn ->
        truthy (vault_reference conn) = true ->
        direct_tier w conn_id = None
        /\ (_get_client_config w conn_id).1
           = first_usable [vault_tier w conn_id] (env_tier w))
  /\ (forall conn c,
        get_connection w conn_id = Returned conn ->
        truthy (vault_reference conn) = true ->
        vault_tier w conn_id = Some c -> usable c = true ->
        (_get_client_config w conn_id).1 = c)
  /\ ((exists var, EvEnviron var ∈ (_get_client_config w conn_id).2)
      <-> match (_get_config_from_connection w conn_id).1 with
          | Some c => usable c = false
          | None => True
          end)
  /\ (forall var, EvEnviron var ∈ (_get_client_config w conn_id).2 ->
                  (_get_client_config w conn_id).1 = env_tier w)
  /\ _get_config_from_env w
     = (env_tier w,
        [EvEnviron "R2INDEX_API_URL"; EvEnviron "R2INDEX_API_TOKEN";
         EvEnviron "R2_ACCESS_KEY_ID"; EvEnviron "R2_SECRET_ACCESS_KEY";
         EvEnviron "R2_ENDPOINT_URL"]).
Proof.
  assert (Hquiet : forall var, EvEnviron var ∉ (_get_config_from_connection w conn_id).2).
  { intros var Hin.
    destruct (get_config_from_connection_calls w conn_id) as (t & Ht & Hvault).
    rewrite Ht in Hin. apply elem_of_cons in Hin as [?|Hin]; [done|].
    rewrite Forall_forall in Hvault. by apply Hvault in Hin. }
  assert (Hchain : (_get_client_config w conn_id).1 = alternative_chain w conn_id).
  { unfold alternative_chain.
    rewrite get_client_config_value, get_config_from_connection_tiers. simpl.
    destruct (vault_tier w conn_id) as [c|] eqn:Hvault.
    + destruct (usable c) eqn:Hc; [done|].
      unfold vault_tier, direct_tier in *.
      destruct (get_connection w conn_id) as [conn|]; [|done].
      by destruct (truthy (vault_reference conn)).
    + by destruct (direct_tier w conn_id). }
  split; [done|]. split.
  { intros conn Hconn Href.
    assert (Hdirect : direct_tier w conn_id = None).
    { unfold direct_tier. by rewrite Hconn, Href. }
    split; [done|]. rewrite Hchain. unfold alternative_chain. simpl.
    rewrite Hdirect. by destruct (vault_tier w conn_id) as [c|]; [destruct (usable c)|]. }
  split; [|split; [split|split]]; [| | | |done].
  - intros conn c _ _ Hvault Hc.
    by rewrite get_client_config_value, get_config_from_connection_tiers, Hvault, Hc.
  - intros [var Hin]. rewrite get_client_config_calls in Hin.
    apply elem_of_app in Hin as [Hin|Hin]; [by apply Hquiet in Hin|].
    destruct (_get_config_from_connection w conn_id).1 as [c|]; [|done].
    destruct (usable c); [|done]. by apply elem_of_nil in Hin.
  - intros Hneed. exists "R2INDEX_API_URL". rewrite get_client_config_calls.
    apply elem_of_app. right.
    destruct (_get_config_from_connection w conn_id).1 as [c|];
      [rewrite Hneed|]; (apply elem_of_cons; by left).
  - intros var Hin. rewrite get_client_config_calls in Hin.
    rewrite get_client_config_value.
    apply elem_of_app in Hin as [Hin|Hin]; [by apply Hquiet in Hin|].
    destruct (_get_config_from_connection w conn_id).1 as [c|]; [|done].
    destruct (usable c); [|done]. by apply elem_of_nil in Hin.
Qed.

End ConfigProps.

(** ** The event loop *)

Module LoopProps.
Import Hook Operators Spec PyFacts ConfigProps.

Lemma lookups_app t1 t2 : lookups (t1 ++ t2) = lookups t1 ++ lookups t2.
Proof. unfold lookups. apply omap_app. Qed.

Lemma lookups_none (t : list event) :
  Forall (fun e => forall c, e <> EvGetConnection c) t -> lookups t = [].
Proof.
  induction 1 as [|e t He _ IH]; [done|].
  destruct e; try exact IH. by destruct (He conn_id).
Qed.

(** A resolution looks its connection id up once, and calls no client. *)
Lemma get_client_config_lookups {TC} (w : World TC) conn_id :
  lookups (_get_client_config w conn_id).2 = [conn_id].
Proof.
  rewrite get_client_config_calls.
  destruct (get_config_from_connection_calls w conn_id) as (t & -> & Hvault).
  rewrite lookups_app.
  change (lookups (EvGetConnection conn_id :: t)) with (conn_id :: lookups t).
  rewrite (lookups_none t).
  2:{ eapply Forall_impl; [done|]. intros e He c ->. done. }
  rewrite lookups_none; [done|].
  destruct (_get_config_from_connection w conn_id).1 as [c|];
    [destruct (usable c)|]; simpl; repeat constructor; done.
Qed.

Lemma get_client_config_no_client_call {TC} (w : World TC) conn_id :
  Forall (fun e => client_call e = false) (_get_client_config w conn_id).2.
Proof.
  rewrite get_client_config_calls.
  destruct (get_config_from_connection_calls w conn_id) as (t & -> & Hvault).
  apply Forall_app. split.
  - apply Forall_cons. split; [done|].
    eapply Forall_impl; [done|]. intros e He. by destruct e.
  - destruct (_get_config_from_connection w conn_id).1 as [c|];
      [destruct (usable c)|]; simpl; repeat constructor; done.
Qed.

Section Gather.
Context {TC : Type} (w : World TC) {Item : Type}.
Variable conn_id_of : Item -> string.
Variable bucket_of : Item -> string.
Variable attempt : ConnectionConfig -> string -> Item -> total (list (string * pyval)).
Hypothesis attempt_calls_client :
  forall cfg b item, Forall (fun e => client_call e = true) (attempt cfg b item).2.

#[local] Abbreviation state_ok := (state_ok w conn_id_of bucket_of attempt).
#[local] Abbreviation task_ok := (task_ok w conn_id_of bucket_of attempt).
#[local] Abbreviation loop_ok := (loop_ok w conn_id_of bucket_of attempt).
#[local] Abbreviation cached := (cached w).
#[local] Abbreviation resume := (resume w conn_id_of bucket_of attempt).
#[local] Abbreviation run_once := (run_once w conn_id_of bucket_of attempt).
#[local] Abbreviation run_loop := (run_loop w conn_id_of bucket_of attempt).
#[local] Abbreviation run_gather := (run_gather w conn_id_of bucket_of attempt).
#[local] Abbreviation expected := (expected w conn_id_of bucket_of attempt).

Lemma attempt_lookups cfg b item : lookups (attempt cfg b item).2 = [].
Proof.
  apply lookups_none. eapply Forall_impl; [apply attempt_calls_client|].
  intros e He c ->. done.
Qed.

(** [get_or_create_config] returns the resolved configuration of the id,
    resolving it only when the id is not in the dict yet. *)
Lemma get_or_create_config_ok items st item :
  item ∈ items -> state_ok items st ->
  exists st',
    get_or_create_config w (conn_id_of item) st = (resolved w (conn_id_of item), st')
    /\ state_ok items st'
    /\ cached st' (conn_id_of item)
    /\ (forall k, cached st k -> cached st' k).
Proof.
  intros Hitem Hok. pose proof Hok as (Hcache & Hnodup & Hdom & Hclient).
  unfold get_or_create_config.
  destruct (conn_configs st !! conn_id_of item) as [cfg|] eqn:Hlook.
  - destruct (Hcache _ _ Hlook) as [-> _].
    exists st. done.
  - pose proof (get_client_config_lookups w (conn_id_of item)) as Hlk.
    pose proof (get_client_config_no_client_call w (conn_id_of item)) as Hnc.
    assert (Hres : resolved w (conn_id_of item) = (_get_client_config w (conn_id_of item)).1)
      by done.
    destruct (_get_client_config w (conn_id_of item)) as [config t].
    simpl in *. rewrite Hres. eexists. split; [done|]. rewrite <- Hres. clear Hres.
    assert (Hfresh : conn_id_of item ∉ lookups (calls st)).
    { rewrite Hdom, Hlook. by intros [? ?]. }
    split; [|split].
    + split; [|split; [|split]]; simpl.
      * intros c cfg [[<- <-]|[_ H]]%lookup_insert_Some; [by eauto|].
        by apply Hcache.
      * rewrite lookups_app, Hlk. apply NoDup_app.
        split; [done|]. split; [|apply NoDup_singleton].
        by intros c Hc ->%list_elem_of_singleton.
      * intros c.
        rewrite lookups_app, Hlk, elem_of_app, list_elem_of_singleton, Hdom.
        rewrite lookup_insert_is_Some.
        split.
        -- intros [? | ->]; [|by left].
           destruct (decide (conn_id_of item = c)); [by left|by right].
        -- intros [-> | [_ ?]]; [by right|by left].
      * intros e [He|He]%elem_of_app Hcall; [by apply Hclient|].
        rewrite Forall_forall in Hnc. rewrite (Hnc _ He) in Hcall. done.
    + unfold Spec.cached. simpl. apply lookup_insert_eq.
    + unfold Spec.cached. simpl. intros k Hk.
      rewrite lookup_insert_ne; [done|]. intros <-. by rewrite Hlook in Hk.
Qed.
Lemma task_ok_mono st st' item c :
  (forall k, cached st k -> cached st' k) -> task_ok st item c -> task_ok st' item c.
Proof.
  intros Hmono. destruct c; simpl; [done| |].
  - intros (? & ? & ? & ?). auto.
  - intros [? ?]. auto.
Qed.

(** Resuming a task keeps what holds of it and of the state, and uses up one
    resumption. *)
Lemma resume_ok items st item c :
  item ∈ items -> state_ok items st -> task_ok st item c ->
  exists c' st',
    resume c st = (c', st')
    /\ task_ok st' item c'
    /\ state_ok items st'
    /\ (forall k, cached st k -> cached st' k)
    /\ work c = work c' + (if unfinished c then 1 else 0).
Proof.
  intros Hitem Hok Htask. destruct c as [item'|config bucket item'|result]; simpl in *.
  - subst item'.
    destruct (get_or_create_config_ok items st item Hitem Hok)
      as (st' & -> & Hok' & Hcached & Hmono).
    eexists _, _. split; [done|]. simpl.
    split; [done|]. split; [done|]. split; [done|]. done.
  - destruct Htask as (-> & -> & -> & Hcached).
    pose proof (attempt_calls_client (resolved w (conn_id_of item)) (bucket_of item) item)
      as Hcalls.
    pose proof (attempt_lookups (resolved w (conn_id_of item)) (bucket_of item) item)
      as Hlk.
    assert (Hres : expected item
                   = (attempt (resolved w (conn_id_of item)) (bucket_of item) item).1)
      by done.
    assert (Hexp : expected_calls w conn_id_of bucket_of attempt item
                   = (attempt (resolved w (conn_id_of item)) (bucket_of item) item).2)
      by done.
    destruct (attempt (resolved w (conn_id_of item)) (bucket_of item) item) as [result t].
    simpl in *. eexists _, _. split; [done|]. simpl.
    destruct Hok as (Hcache & Hnodup & Hdom & Hclient).
    split; [done|]. split; [|done].
    split; [done|]. simpl. rewrite lookups_app, Hlk, app_nil_r.
    split; [done|]. split; [done|].
    intros e [He|He]%elem_of_app Hcall; [by apply Hclient|].
    exists item. by rewrite Hexp.
  - eexists _, _. split; [done|]. simpl.
    split; [done|]. split; [done|]. split; [done|]. done.
Qed.

Lemma ready_from_elem k (ts : list (coroutine Item)) i :
  i ∈ ready_from k ts ->
  k <= i /\ exists c, ts !! (i - k) = Some c /\ unfinished c = true.
Proof.
  revert k. induction ts as [|c ts IH]; intros k; simpl; [by intros ?%elem_of_nil|].
  intros Hin.
  assert (Hrest : i ∈ ready_from (S k) ts ->
                  k <= i /\ exists c', (c :: ts) !! (i - k) = Some c' /\ unfinished c' = true).
  { intros (Hle & c' & Hc' & Hun)%IH. split; [lia|]. exists c'. split; [|done].
    replace (i - k) with (S (i - S k)) by lia. done. }
  destruct (unfinished c) eqn:Hc; [|by apply Hrest].
  apply elem_of_cons in Hin as [->|Hin]; [|by apply Hrest].
  split; [done|]. exists c. by rewrite Nat.sub_diag.
Qed.

Lemma total_work_cons (c : coroutine Item) ts :
  total_work (c :: ts) = work c + total_work ts.
Proof. done. Qed.

Lemma ready_from_nil k (ts : list (coroutine Item)) :
  ready_from k ts = [] -> total_work ts = 0.
Proof.
  revert k. induction ts as [|c ts IH]; intros k; simpl; [done|].
  rewrite total_work_cons.
  destruct c; simpl; try done. intros H. by apply IH in H.
Qed.

Lemma total_work_insert (ts : list (coroutine Item)) i c c' :
  ts !! i = Some c ->
  total_work (<[i := c']> ts) + work c = total_work ts + work c'.
Proof.
  revert i. induction ts as [|d ts IH]; intros [|i]; simpl; try done.
  - intros [= ->]. rewrite !total_work_cons. lia.
  - intros H. specialize (IH _ H). rewrite !total_work_cons. lia.
Qed.

(** One turn of the loop keeps the invariant and, unless every task has
    finished, uses up one resumption. *)
Lemma run_once_ok items choice l :
  loop_ok items l ->
  loop_ok items (run_once choice l)
  /\ total_work (tasks (run_once choice l)) = Nat.pred (total_work (tasks l)).
Proof.
  intros [Htasks Hstate]. unfold run_once.
  destruct (ready_from 0 (tasks l)) as [|i0 ready] eqn:Hready.
  { rewrite lookup_nil. split; [done|]. by rewrite (ready_from_nil _ _ Hready). }
  rewrite <- Hready.
  destruct (ready_from 0 (tasks l) !! (choice mod length (ready_from 0 (tasks l))))
    as [i|] eqn:Hpick.
  2:{ apply lookup_ge_None in Hpick.
      pose proof (Nat.mod_upper_bound choice (length (ready_from 0 (tasks l)))) as Hlt.
      rewrite Hready in Hlt, Hpick. simpl in *. lia. }
  apply list_elem_of_lookup_2, ready_from_elem in Hpick as (_ & c & Hc & Hun).
  rewrite Nat.sub_0_r in Hc. rewrite Hc.
  destruct (Forall2_lookup_r _ _ _ _ _ Htasks Hc) as (item & Hitem & Htask).
  destruct (resume_ok items (state l) item c) as (c' & st' & -> & Htask' & Hstate' & Hmono & Hwork);
    [by eapply list_elem_of_lookup_2|done|done|].
  simpl. split; [split; simpl|].
  - rewrite <- (list_insert_id items i item Hitem).
    apply Forall2_insert; [|done].
    eapply Forall2_impl; [done|]. intros ??. by apply task_ok_mono.
  - done.
  - pose proof (total_work_insert (tasks l) i c c' Hc). rewrite Hun in Hwork. lia.
Qed.

Lemma run_loop_ok items sched now turns l :
  loop_ok items l ->
  loop_ok items (run_loop sched now turns l)
  /\ total_work (tasks (run_loop sched now turns l)) = total_work (tasks l) - turns.
Proof.
  revert now l. induction turns as [|turns IH]; intros now l Hl; simpl.
  - split; [done|lia].
  - destruct (run_once_ok items (sched now) l Hl) as [Hl' Hwork].
    destruct (IH (S now) _ Hl') as [Hl'' Hwork'].
    split; [done|]. rewrite Hwork', Hwork. lia.
Qed.

Lemma loop_ok_initial items :
  loop_ok items {| tasks := Created <$> items; state := fresh |}
  /\ total_work (Created <$> items) = 2 * length items.
Proof.
  split; [split; simpl|].
  - apply Forall2_fmap_r, Forall_Forall2_diag, Forall_forall. done.
  - split; [|split; [|split]]; simpl.
    + intros c cfg. by rewrite lookup_empty.
    + apply NoDup_nil_2.
    + intros c. rewrite lookup_empty. split; [by intros ?%elem_of_nil|by intros [? ?]].
    + by intros e ?%elem_of_nil.
  - induction items as [|item items IH]; [done|].
    rewrite fmap_cons, total_work_cons, IH. simpl. lia.
Qed.

Lemma finished_tasks items st (ts : list (coroutine Item)) :
  Forall2 (task_ok st) items ts -> total_work ts = 0 ->
  omap result_of ts = expected <$> items
  /\ forall item, item ∈ items -> cached st (conn_id_of item).
Proof.
  induction 1 as [|item c items ts Htask _ IH].
  - intros _. split; [done|]. by intros item ?%elem_of_nil.
  - rewrite total_work_cons. intros Hwork.
    destruct c as [| |result]; [simpl in Hwork; lia..|].
    destruct Htask as [-> Hcached]. destruct (IH Hwork) as [Hres Hall].
    split.
    + change (omap result_of (Finished (expected item) :: ts))
        with (expected item :: omap result_of ts).
      by rewrite Hres.
    + intros item' [->|?]%elem_of_cons; auto.
Qed.

(** The gather: whatever the schedule, the results are the outcomes of the
    items in the order of the items, every resolution happened at most
    once, and every client call was one of the expected calls. *)
Lemma run_gather_ok sched items :
  (run_gather sched items).1 = expected <$> items
  /\ state_ok items (run_gather sched items).2
  /\ forall item, item ∈ items -> cached (run_gather sched items).2 (conn_id_of item).
Proof.
  unfold Operators.run_gather. simpl.
  destruct (loop_ok_initial items) as [Hinit Hwork].
  destruct (run_loop_ok items sched 0 (2 * length items) _ Hinit) as [[Htasks Hstate] Hdone].
  simpl in Hdone. rewrite Hwork in Hdone.
  destruct (finished_tasks _ _ _ Htasks) as [Hres Hcached]; [simpl; lia|].
  done.
Qed.

Lemma run_alone_expected item :
  run_alone w conn_id_of bucket_of attempt item = Some (expected item).
Proof.
  unfold run_alone, Operators.resume, get_or_create_config, expected, resolved. simpl.
  rewrite lookup_empty.
  destruct (_get_client_config w (conn_id_of item)) as [config t]. simpl.
  by destruct (attempt config (bucket_of item) item).
Qed.

End Gather.

End LoopProps.

(** ** The operators *)

Module OperatorProps.
Import Hook Operators Spec PyFacts ConfigProps LoopProps.

Section Results.
Context {TC : Type} (w : World TC).

Lemma upload_try_calls (self : Operator UploadItem TC) cfg b item :
  Forall (fun e => client_call e = true) (upload_try w self cfg b item).2.
Proof. by apply Forall_singleton. Qed.

Lemma download_try_calls (self : Operator DownloadItem TC) cfg b item :
  Forall (fun e => client_call e = true) (download_try w self cfg b item).2.
Proof. by apply Forall_singleton. Qed.

Lemma upload_alone_result self item : upload_alone w self item = Some (upload_result w self item).
Proof.
  unfold upload_alone. rewrite run_alone_expected.
  unfold expected, upload_result, upload_call, upload_try. simpl.
  by destruct (client_upload _ _ _ _ _).
Qed.

Lemma download_alone_result self item :
  download_alone w self item = Some (download_result w self item).
Proof.
  unfold download_alone. rewrite run_alone_expected.
  unfold expected, download_result, download_call, download_try. simpl.
  by destruct (client_download _ _ _ _ _) as [[??]|].
Qed.

Lemma upload_all_results self sched :
  (upload_all w self sched).1 = upload_result w self <$> items self.
Proof.
  unfold upload_all.
  destruct (run_gather_ok w (upload_conn_id self) (upload_bucket self) (upload_try w self)
              (upload_try_calls self) sched (items self)) as [-> _].
  apply list_fmap_ext. intros i item _.
  pose proof (upload_alone_result self item) as H.
  unfold upload_alone in H. rewrite run_alone_expected in H. congruence.
Qed.

Lemma download_all_results self sched :
  (download_all w self sched).1 = download_result w self <$> items self.
Proof.
  unfold download_all.
  destruct (run_gather_ok w (download_conn_id self) (download_bucket self)
              (download_try w self) (download_try_calls self) sched (items self)) as [-> _].
  apply list_fmap_ext. intros i item _.
  pose proof (download_alone_result self item) as H.
  unfold download_alone in H. rewrite run_alone_expected in H. congruence.
Qed.

Lemma upload_result_failure self item :
  is_failure (upload_result w self item) = raised (upload_call w self item).
Proof. unfold upload_result. by destruct (upload_call w self item). Qed.

Lemma download_result_failure self item :
  is_failure (download_result w self item) = raised (download_call w self item).
Proof. unfold download_result. by destruct (download_call w self item) as [[??]|]. Qed.

Lemma filter_results {A} (f : A -> list (string * pyval)) (failed : A -> bool) xs :
  (forall x, is_failure (f x) = failed x) ->
  List.filter is_failure (f <$> xs) = f <$> List.filter failed xs.
Proof.
  intros Hf. induction xs as [|x xs IH]; [done|].
  rewrite fmap_cons. simpl. rewrite Hf, IH. by destruct (failed x).
Qed.

Lemma filter_nil_forall {A} (p : A -> bool) xs :
  List.filter p xs = [] -> Forall (fun x => p x = false) xs.
Proof.
  induction xs as [|x xs IH]; simpl; [by constructor|].
  destruct (p x) eqn:Hx; [done|]. intros H. constructor; auto.
Qed.

Lemma upload_comprehension self xs :
  Forall (fun item => raised (upload_call w self item) = false) xs ->
  comprehension (fun r => subscript r "file_record") (upload_result w self <$> xs)
  = Returned (upload_returned w self <$> xs).
Proof.
  induction 1 as [|item xs Hitem _ IH]; [done|].
  rewrite !fmap_cons. simpl. rewrite IH.
  unfold upload_result, upload_returned.
  by destruct (upload_call w self item).
Qed.

Lemma download_comprehension self xs :
  Forall (fun item => raised (download_call w self item) = false) xs ->
  comprehension download_entry (download_result w self <$> xs)
  = Returned (download_returned w self <$> xs).
Proof.
  induction 1 as [|item xs Hitem _ IH]; [done|].
  rewrite !fmap_cons. simpl. rewrite IH.
  unfold download_result, download_returned.
  by destruct (download_call w self item) as [[??]|].
Qed.

(** [execute] in one equation: the batch failure with the number of items
    whose client call raised, out of all items; or, when none raised, what
    is returned for each item, in the order of the items. *)
Lemma upload_execute_value self sched :
  (upload_execute w self sched).1 =
  match length (List.filter (fun item => raised (upload_call w self item)) (items self)) with
  | 0 => Returned (upload_returned w self <$> items self)
  | S n => Raised (batch_failure "uploads" (S n) (length (items self)))
  end.
Proof.
  unfold upload_execute.
  pose proof (upload_all_results self sched) as Hres.
  destruct (upload_all w self sched) as [results st]. simpl in Hres. subst results.
  change (fun r => eq_str (dict_get r "status") "error") with is_failure.
  rewrite (filter_results _ _ _ (upload_result_failure self)).
  destruct (List.filter _ (items self)) as [|item failed] eqn:Hfilter; simpl.
  - apply upload_comprehension. by apply filter_nil_forall.
  - by rewrite !length_fmap.
Qed.

Lemma download_execute_value self sched :
  (download_execute w self sched).1 =
  match length (List.filter (fun item => raised (download_call w self item)) (items self)) with
  | 0 => Returned (download_returned w self <$> items self)
  | S n => Raised (batch_failure "downloads" (S n) (length (items self)))
  end.
Proof.
  unfold download_execute.
  pose proof (download_all_results self sched) as Hres.
  destruct (download_all w self sched) as [results st]. simpl in Hres. subst results.
  change (fun r => eq_str (dict_get r "status") "error") with is_failure.
  rewrite (filter_results _ _ _ (download_result_failure self)).
  destruct (List.filter _ (items self)) as [|item failed] eqn:Hfilter; simpl.
  - apply download_comprehension. by apply filter_nil_forall.
  - by rewrite !length_fmap.
Qed.


Lemma upload_results_lookup self sched i :
  (upload_all w self sched).1 !! i = items self !! i ≫= upload_alone w self.
Proof.
  rewrite upload_all_results, list_lookup_fmap.
  destruct (items self !! i) as [item|]; [|done].
  simpl. by rewrite upload_alone_result.
Qed.

Lemma download_results_lookup self sched i :
  (download_all w self sched).1 !! i = items self !! i ≫= download_alone w self.
Proof.
  rewrite download_all_results, list_lookup_fmap.
  destruct (items self !! i) as [item|]; [|done].
  simpl. by rewrite download_alone_result.
Qed.

Lemma failures_of_results {A} (f : A -> list (string * pyval)) (failed : A -> bool) xs :
  (forall x, is_failure (f x) = failed x) ->
  (exists r, r ∈ f <$> xs /\ is_failure r = true)
  <-> List.filter failed xs <> [].
Proof.
  intros Hf. split.
  - intros (r & (x & -> & Hx)%list_elem_of_fmap & Hr). rewrite Hf in Hr.
    intros Hnil. apply filter_nil_forall in Hnil.
    rewrite Forall_forall in Hnil. rewrite (Hnil _ Hx) in Hr. done.
  - intros Hne. destruct (List.filter failed xs) as [|x rest] eqn:Hfilter; [done|].
    assert (Hx : In x (List.filter failed xs)) by (rewrite Hfilter; by left).
    apply filter_In in Hx as [Hx Hfx]. exists (f x). split.
    + apply list_elem_of_fmap. exists x. split; [done|]. by apply list_elem_of_In.
    + by rewrite Hf.
Qed.

End Results.

(** C1.  Whatever the schedule of the loop, the gathered results are as
    many as the items, and the result at a position is the outcome of the
    item at that position (what its coroutine returns when run on its own);
    so two schedules give the same results.  With no items, [execute]
    returns the empty list: no call is made and nothing is raised. *)
Theorem results_follow_the_items {TC} (w : World TC) (sched : nat -> nat) :
  (forall self : Operator UploadItem TC,
      length (upload_all w self sched).1 = length (items self)
      /\ (forall i, (upload_all w self sched).1 !! i
                    = items self !! i ≫= upload_alone w self)
      /\ (forall sched', (upload_all w self sched').1 = (upload_all w self sched).1))
  /\ (forall self : Operator DownloadItem TC,
        length (download_all w self sched).1 = length (items self)
        /\ (forall i, (download_all w self sched).1 !! i
                      = items self !! i ≫= download_alone w self)
        /\ (forall sched', (download_all w self sched').1 = (download_all w self sched).1))
  /\ (forall bucket conn_id tc,
        upload_execute w (R2IndexUploadOperator_init bucket (ItemList []) conn_id tc) sched
        = (Returned [], []))
  /\ (forall bucket conn_id tc,
        download_execute w (R2IndexDownloadOperator_init bucket (ItemList []) conn_id tc) sched
        = (Returned [], [])).
Proof.
  split; [|split; [|split]]; try done.
  - intros self. split; [|split].
    + by rewrite upload_all_results, length_fmap.
    + apply upload_results_lookup.
    + intros sched'. by rewrite !upload_all_results.
  - intros self. split; [|split].
    + by rewrite download_all_results, length_fmap.
    + apply download_results_lookup.
    + intros sched'. by rewrite !download_all_results.
Qed.

(** C2.  [execute] raises exactly when some gathered result is a failure;
    what it raises is the batch failure whose message gives the number of
    failed results out of the number of items; when no result is a failure
    it raises nothing and returns, in the order of the items, what the
    client gave for each. *)
Theorem execute_raises_iff_an_item_failed {TC} (w : World TC) (sched : nat -> nat) :
  (forall self : Operator UploadItem TC,
      let results := (upload_all w self sched).1 in
      ((exists e, (upload_execute w self sched).1 = Raised e)
       <-> exists r, r ∈ results /\ is_failure r = true)
      /\ (forall e,
            (upload_execute w self sched).1 = Raised e ->
            e = batch_failure "uploads" (length (List.filter is_failure results))
                  (length (items self)))
      /\ ((forall r, r ∈ results -> is_failure r = false) ->
          (upload_execute w self sched).1 = Returned (upload_returned w self <$> items self)
          /\ Forall (fun item => upload_call w self item
                                 = ClientOk (upload_returned w self item)) (items self)))
  /\ (forall self : Operator DownloadItem TC,
        let results := (download_all w self sched).1 in
        ((exists e, (download_execute w self sched).1 = Raised e)
         <-> exists r, r ∈ results /\ is_failure r = true)
        /\ (forall e,
              (download_execute w self sched).1 = Raised e ->
              e = batch_failure "downloads" (length (List.filter is_failure results))
                    (length (items self)))
        /\ ((forall r, r ∈ results -> is_failure r = false) ->
            (download_execute w self sched).1
            = Returned (download_returned w self <$> items self)
            /\ Forall (fun item =>
                         exists path file_record,
                           download_call w self item = ClientOk (path, file_record)
                           /\ download_returned w self item
                              = PDict [("path", PStr path); ("file_record", file_record)])
                 (items self))).
Proof.
  split.
  - intros self results. subst results.
    rewrite upload_execute_value, upload_all_results.
    rewrite (failures_of_results _ _ _ (upload_result_failure w self)).
    rewrite (filter_results _ _ _ (upload_result_failure w self)), length_fmap.
    destruct (List.filter _ (items self)) as [|item failed] eqn:Hfilter; simpl.
    + split; [|split].
      * split; [by intros [e ?]|done].
      * done.
      * intros _. split; [done|].
        eapply Forall_impl; [by apply filter_nil_forall|]. simpl.
        intros item. unfold upload_returned. by destruct (upload_call w self item).
    + split; [|split].
      * split; [done|]. intros _. by eexists.
      * by intros e [= <-].
      * intros Hnone. exfalso.
        assert (Hin : In item (List.filter (fun item => raised (upload_call w self item))
                                 (items self))) by (rewrite Hfilter; by left).
        apply filter_In in Hin as [Hin Hraised].
        rewrite <- upload_result_failure in Hraised.
        rewrite Hnone in Hraised; [done|].
        apply list_elem_of_fmap. exists item. split; [done|]. by apply list_elem_of_In.
  - intros self results. subst results.
    rewrite download_execute_value, download_all_results.
    rewrite (failures_of_results _ _ _ (download_result_failure w self)).
    rewrite (filter_results _ _ _ (download_result_failure w self)), length_fmap.
    destruct (List.filter _ (items self)) as [|item failed] eqn:Hfilter; simpl.
    + split; [|split].
      * split; [by intros [e ?]|done].
      * done.
      * intros _. split; [done|].
        eapply Forall_impl; [by apply filter_nil_forall|]. simpl.
        intros item. unfold download_returned.
        destruct (download_call w self item) as [[path file_record]|]; [eauto|done].
    + split; [|split].
      * split; [done|]. intros _. by eexists.
      * by intros e [= <-].
      * intros Hnone. exfalso.
        assert (Hin : In item (List.filter (fun item => raised (download_call w self item))
                                 (items self))) by (rewrite Hfilter; by left).
        apply filter_In in Hin as [Hin Hraised].
        rewrite <- download_result_failure in Hraised.
        rewrite Hnone in Hraised; [done|].
        apply list_elem_of_fmap. exists item. split; [done|]. by apply list_elem_of_In.
Qed.

(** C3.  The result of an item whose client call raises is a failure record
    with the message of the error and the item's [source] (upload) or
    [source_path] (download); and every item of the batch, that one and the
    others, has its own result at its own position: the one its coroutine
    returns on its own, a success or a failure. *)
Theorem a_failing_item_fails_alone {TC} (w : World TC) (sched : nat -> nat) :
  (forall (self : Operator UploadItem TC) i item message,
      items self !! i = Some item ->
      upload_call w self item = ClientRaised message ->
      (upload_all w self sched).1 !! i
      = Some [("status", PStr "error"); ("message", PStr message);
              ("source", PStr (source item))]
      /\ length (upload_all w self sched).1 = length (items self)
      /\ forall j other,
          items self !! j = Some other ->
          exists r, (upload_all w self sched).1 !! j = Some r
                    /\ upload_alone w self other = Some r /\ has_status r)
  /\ (forall (self : Operator DownloadItem TC) i item message,
        items self !! i = Some item ->
        download_call w self item = ClientRaised message ->
        (download_all w self sched).1 !! i
        = Some [("status", PStr "error"); ("message", PStr message);
                ("source_path", PStr (source_path item))]
        /\ length (download_all w self sched).1 = length (items self)
        /\ forall j other,
            items self !! j = Some other ->
            exists r, (download_all w self sched).1 !! j = Some r
                      /\ download_alone w self other = Some r /\ has_status r).
Proof.
  split.
  - intros self i item message Hitem Hcall.
    rewrite upload_all_results, length_fmap, list_lookup_fmap, Hitem. simpl.
    split; [|split; [done|]].
    + unfold upload_result. by rewrite Hcall.
    + intros j other Hother. exists (upload_result w self other).
      rewrite list_lookup_fmap, Hother, upload_alone_result.
      split; [done|]. split; [done|].
      unfold upload_result, has_status.
      destruct (upload_call w self other); [by left|by right].
  - intros self i item message Hitem Hcall.
    rewrite download_all_results, length_fmap, list_lookup_fmap, Hitem. simpl.
    split; [|split; [done|]].
    + unfold download_result. by rewrite Hcall.
    + intros j other Hother. exists (download_result w self other).
      rewrite list_lookup_fmap, Hother, download_alone_result.
      split; [done|]. split; [done|].
      unfold download_result, has_status.
      destruct (download_call w self other) as [[??]|]; [by left|by right].
Qed.

Lemma a_failing_item_fails_alone_sample :
  (upload_all Sample.world Sample.uploads Sample.lifo).1 !! 1
  = Some [("status", PStr "error"); ("message", PStr "checksum mismatch");
          ("source", PStr "/tmp/bad.csv")]
  /\ length (upload_all Sample.world Sample.uploads Sample.lifo).1 = 3.
Proof.
  destruct (proj1 (a_failing_item_fails_alone Sample.world Sample.lifo)
              Sample.uploads 1 (Sample.upload_item "/tmp/bad.csv" (Some "other"))
              "checksum mismatch" eq_refl eq_refl) as (H1 & H2 & _).
  split; [exact H1|exact H2].
Defined.

(** C10.  An operator built from one item is the operator built from the
    list of that one item: [items] is that list, and [execute] is the same. *)
Theorem one_item_is_the_singleton_list {TC} (w : World TC) (sched : nat -> nat)
    (bucket : string) (conn_id : option string) (tc : option TC) :
  (forall item : UploadItem,
      items (R2IndexUploadOperator_init bucket (OneItem item) conn_id tc) = [item]
      /\ R2IndexUploadOperator_init bucket (OneItem item) conn_id tc
         = R2IndexUploadOperator_init bucket (ItemList [item]) conn_id tc
      /\ upload_execute w (R2IndexUploadOperator_init bucket (OneItem item) conn_id tc) sched
         = upload_execute w (R2IndexUploadOperator_init bucket (ItemList [item]) conn_id tc)
             sched)
  /\ (forall item : DownloadItem,
        items (R2IndexDownloadOperator_init bucket (OneItem item) conn_id tc) = [item]
        /\ R2IndexDownloadOperator_init bucket (OneItem item) conn_id tc
           = R2IndexDownloadOperator_init bucket (ItemList [item]) conn_id tc
        /\ download_execute w (R2IndexDownloadOperator_init bucket (OneItem item) conn_id tc)
             sched
           = download_execute w
               (R2IndexDownloadOperator_init bucket (ItemList [item]) conn_id tc) sched).
Proof. by split; intros item. Qed.

(** C7, as the specification words it, fails.  A successful batch of
    downloads returns records without a status, and a batch with a failed
    item returns nothing at all. *)
Lemma returned_value_carries_no_status :
  (exists r, (download_execute Sample.world Sample.downloads Sample.fifo).1
             = Returned [PDict r; PDict [("path", PStr "/tmp/data.csv");
                                         ("file_record", PDict [("id", PStr "acme/b")])]]
             /\ assoc "status" r = None)
  /\ ~ surfaces_every_result (download_execute Sample.world Sample.downloads Sample.fifo).1
  /\ ~ surfaces_every_result
         (download_execute Sample.world Sample.failing_downloads Sample.fifo).1.
Proof.
  split; [|split].
  - by eexists.
  - intros (vs & Hvs & Hall). vm_compute in Hvs. injection Hvs as <-.
    apply Forall_cons in Hall as [(r & [= <-] & [Hr|Hr]) _]; by vm_compute in Hr.
  - intros (vs & Hvs & _). by vm_compute in Hvs.
Qed.

Section Once.
Context {TC : Type} (w : World TC).

Lemma upload_all_state (self : Operator UploadItem TC) sched :
  let st := (upload_all w self sched).2 in
  NoDup (lookups (calls st))
  /\ (forall c, c ∈ lookups (calls st)
                <-> exists item, item ∈ items self /\ upload_conn_id self item = c)
  /\ (forall item, item ∈ items self ->
                   conn_configs st !! upload_conn_id self item
                   = Some (resolved w (upload_conn_id self item)))
  /\ (forall cfg bucket item,
        EvUpload cfg bucket item ∈ calls st ->
        item ∈ items self /\ conn_configs st !! upload_conn_id self item = Some cfg).
Proof.
  unfold upload_all.
  destruct (run_gather_ok w (upload_conn_id self) (upload_bucket self) (upload_try w self)
              (upload_try_calls w self) sched (items self))
    as (_ & (Hcache & Hnodup & Hdom & Hclient) & Hcached).
  simpl. split; [done|]. split; [|split; [done|]].
  - intros c. rewrite Hdom. split.
    + intros [cfg Hcfg]. by destruct (Hcache _ _ Hcfg).
    + intros (item & Hitem & <-). by rewrite (Hcached item Hitem).
  - intros cfg bucket item Hin.
    destruct (Hclient _ Hin eq_refl) as (item' & Hitem' & Hcall).
    apply list_elem_of_singleton in Hcall. injection Hcall as -> _ ->.
    split; [done|]. by apply Hcached.
Qed.

Lemma download_all_state (self : Operator DownloadItem TC) sched :
  let st := (download_all w self sched).2 in
  NoDup (lookups (calls st))
  /\ (forall c, c ∈ lookups (calls st)
                <-> exists item, item ∈ items self /\ download_conn_id self item = c)
  /\ (forall item, item ∈ items self ->
                   conn_configs st !! download_conn_id self item
                   = Some (resolved w (download_conn_id self item)))
  /\ (forall cfg bucket item,
        EvDownload cfg bucket item ∈ calls st ->
        item ∈ items self /\ conn_configs st !! download_conn_id self item = Some cfg).
Proof.
  unfold download_all.
  destruct (run_gather_ok w (download_conn_id self) (download_bucket self)
              (download_try w self) (download_try_calls w self) sched (items self))
    as (_ & (Hcache & Hnodup & Hdom & Hclient) & Hcached).
  simpl. split; [done|]. split; [|split; [done|]].
  - intros c. rewrite Hdom. split.
    + intros [cfg Hcfg]. by destruct (Hcache _ _ Hcfg).
    + intros (item & Hitem & <-). by rewrite (Hcached item Hitem).
  - intros cfg bucket item Hin.
    destruct (Hclient _ Hin eq_refl) as (item' & Hitem' & Hcall).
    apply list_elem_of_singleton in Hcall. injection Hcall as -> _ ->.
    split; [done|]. by apply Hcached.
Qed.

Lemma upload_execute_calls (self : Operator UploadItem TC) sched :
  (upload_execute w self sched).2 = calls (upload_all w self sched).2.
Proof.
  unfold upload_execute. destruct (upload_all w self sched) as [results st].
  by destruct (List.filter _ results).
Qed.

Lemma download_execute_calls (self : Operator DownloadItem TC) sched :
  (download_execute w self sched).2 = calls (download_all w self sched).2.
Proof.
  unfold download_execute. destruct (download_all w self sched) as [results st].
  by destruct (List.filter _ results).
Qed.

End Once.

(** C6.  In one [execute], whatever the schedule, the connection ids looked
    up in the connection store are without repetition, and they are the
    effective connection ids of the items (the item's own, else the
    operator's): each is resolved once, a resolution making exactly one
    lookup.  At the end the dict holds the configuration of the effective id
    of every item, and every client call was made with the configuration
    the dict holds for the effective id of its item. *)
Theorem each_connection_id_is_resolved_once {TC} (w : World TC) (sched : nat -> nat) :
  (forall self : Operator UploadItem TC,
      let st := (upload_all w self sched).2 in
      (upload_execute w self sched).2 = calls st
      /\ NoDup (lookups (calls st))
      /\ (forall c, c ∈ lookups (calls st)
                    <-> exists item, item ∈ items self /\ upload_conn_id self item = c)
      /\ (forall item, item ∈ items self ->
                       conn_configs st !! upload_conn_id self item
                       = Some (resolved w (upload_conn_id self item)))
      /\ (forall cfg bucket item,
            EvUpload cfg bucket item ∈ calls st ->
            item ∈ items self /\ conn_configs st !! upload_conn_id self item = Some cfg))
  /\ (forall self : Operator DownloadItem TC,
        let st := (download_all w self sched).2 in
        (download_execute w self sched).2 = calls st
        /\ NoDup (lookups (calls st))
        /\ (forall c, c ∈ lookups (calls st)
                      <-> exists item, item ∈ items self /\ download_conn_id self item = c)
        /\ (forall item, item ∈ items self ->
                         conn_configs st !! download_conn_id self item
                         = Some (resolved w (download_conn_id self item)))
        /\ (forall cfg bucket item,
              EvDownload cfg bucket item ∈ calls st ->
              item ∈ items self
              /\ conn_configs st !! download_conn_id self item = Some cfg))
  /\ (forall conn_id, lookups (_get_client_config w conn_id).2 = [conn_id]).
Proof.
  split; [|split].
  - intros self. split; [apply upload_execute_calls|apply upload_all_state].
  - intros self. split; [apply download_execute_calls|apply download_all_state].
  - apply get_client_config_lookups.
Qed.

Section Returned.
Context {TC : Type} (w : World TC).

Lemma upload_result_status (self : Operator UploadItem TC) item :
  has_status (upload_result w self item).
Proof. unfold upload_result. destruct (upload_call w self item); [by left|by right]. Qed.

Lemma download_result_status (self : Operator DownloadItem TC) item :
  has_status (download_result w self item).
Proof.
  unfold download_result. destruct (download_call w self item) as [[??]|]; [by left|by right].
Qed.

Lemma upload_returned_of_result (self : Operator UploadItem TC) item :
  raised (upload_call w self item) = false ->
  upload_returned w self item = dict_get (upload_result w self item) "file_record"
  /\ dict_get (upload_result w self item) "status" = PStr "success".
Proof.
  unfold upload_returned, upload_result. by destruct (upload_call w self item).
Qed.

Lemma download_returned_of_result (self : Operator DownloadItem TC) item :
  raised (download_call w self item) = false ->
  download_returned w self item
  = PDict [("path", dict_get (download_result w self item) "path");
           ("file_record", dict_get (download_result w self item) "file_record")]
  /\ dict_get (download_result w self item) "status" = PStr "success".
Proof.
  unfold download_returned, download_result.
  by destruct (download_call w self item) as [[??]|].
Qed.

End Returned.

(** C7, amended.  Every gathered result carries a status, ["success"] or
    ["error"]; but the value [execute] returns, which it does only when
    every result is a success, is the sequence, in the order of the items,
    of the [file_record] of each result (upload) or of the record of its
    [path] and [file_record] (download), which carries no status.  When
    some result is a failure nothing is returned: a batch failure is
    raised. *)
Theorem execute_returns_records_without_status {TC} (w : World TC) (sched : nat -> nat) :
  (forall self : Operator UploadItem TC,
      let results := (upload_all w self sched).1 in
      Forall has_status results
      /\ (forall vs,
            (upload_execute w self sched).1 = Returned vs ->
            vs = (fun r => dict_get r "file_record") <$> results
            /\ Forall (fun r => dict_get r "status" = PStr "success") results)
      /\ ((exists r, r ∈ results /\ is_failure r = true) ->
          exists message,
            (upload_execute w self sched).1 = Raised (AirflowException message)))
  /\ (forall self : Operator DownloadItem TC,
        let results := (download_all w self sched).1 in
        Forall has_status results
        /\ (forall vs,
              (download_execute w self sched).1 = Returned vs ->
              vs = (fun r => PDict [("path", dict_get r "path");
                                    ("file_record", dict_get r "file_record")]) <$> results
              /\ Forall (fun r => dict_get r "status" = PStr "success") results
              /\ Forall (fun v => exists r, v = PDict r /\ assoc "status" r = None) vs)
        /\ ((exists r, r ∈ results /\ is_failure r = true) ->
            exists message,
              (download_execute w self sched).1 = Raised (AirflowException message))).
Proof.
  split.
  - intros self results. subst results.
    rewrite upload_execute_value, upload_all_results.
    rewrite (failures_of_results _ _ _ (upload_result_failure w self)).
    split; [|split].
    + apply Forall_fmap, Forall_forall. intros item _. apply upload_result_status.
    + destruct (List.filter _ (items self)) eqn:Hfilter; simpl; [|done].
      intros vs [= <-]. apply filter_nil_forall in Hfilter.
      rewrite <- list_fmap_compose, Forall_fmap. split.
      * apply Forall_fmap_ext_1. eapply Forall_impl; [done|].
        intros item Hitem. by apply upload_returned_of_result.
      * eapply Forall_impl; [done|]. intros item Hitem.
        by apply upload_returned_of_result.
    + destruct (List.filter _ (items self)); simpl; [done|]. intros _. by eexists.
  - intros self results. subst results.
    rewrite download_execute_value, download_all_results.
    rewrite (failures_of_results _ _ _ (download_result_failure w self)).
    split; [|split].
    + apply Forall_fmap, Forall_forall. intros item _. apply download_result_status.
    + destruct (List.filter _ (items self)) eqn:Hfilter; simpl; [|done].
      intros vs [= <-]. apply filter_nil_forall in Hfilter.
      rewrite <- list_fmap_compose, !Forall_fmap. split; [|split].
      * apply Forall_fmap_ext_1. eapply Forall_impl; [done|].
        intros item Hitem. by apply download_returned_of_result.
      * eapply Forall_impl; [done|]. intros item Hitem.
        by apply download_returned_of_result.
      * eapply Forall_impl; [done|]. intros item Hitem. simpl.
        destruct (download_returned_of_result w self item Hitem) as [-> _]. by eexists.
    + destruct (List.filter _ (items self)); simpl; [done|]. intros _. by eexists.
Qed.

End OperatorProps.

(** ** The properties at the sample inputs *)

Module Samples.
Import Hook Links Operators Spec HookProps LinkProps VaultProps ConfigProps OperatorProps.

Lemma parse_secret_ref_sample :
  _parse_secret_ref "cloudflare/r2#airflow#endpoint-url" "r2_endpoint_url"
  = ("cloudflare/r2#airflow", "endpoint-url").
Proof.
  exact (proj1 (parse_secret_ref_splits_at_last_hash _ _)
           "cloudflare/r2#airflow" "endpoint-url" eq_refl eq_refl).
Defined.

Lemma get_link_sample :
  get_link (PDict [("status", PStr "success"); ("id", PStr "abc123")])
  = Some (Returned "https://r2index.elaunira.com/files/abc123").
Proof.
  apply (proj1 (get_link_elaunira [("status", PStr "success"); ("id", PStr "abc123")])
           "abc123" eq_refl).
  discriminate.
Defined.

(** The vault has the secret of the first two keys and none for the third;
    the last two have no reference. *)
Lemma vault_missing_key_sample :
  exists config,
    (_get_config_from_vault Sample.world (PStr "openbao_default")
       (dict_get (extra_dejson Sample.vault_connection) "vault_secrets_mapping") PNone).1
    = Some config
    /\ config_field "r2index_api_url" config = PStr "https://vault.example"
    /\ config_field "r2_access_key_id" config = PNone.
Proof.
  destruct (proj1 (vault_missing_key_is_local_backend_error_is_caught Sample.world
                     (PStr "openbao_default")
                     (dict_get (extra_dejson Sample.vault_connection) "vault_secrets_mapping")
                     PNone)
              Sample.vault eq_refl) as (config & Hconfig & Hkeys).
  { repeat (apply Forall_cons; split; [by eexists|]). apply Forall_nil_2. }
  exists config. split; [exact Hconfig|]. split.
  - destruct (Hkeys "r2index_api_url") as (_ & _ & Hfound).
    + apply elem_of_cons. by left.
    + exact (Hfound _ _ eq_refl).
  - destruct (Hkeys "r2_access_key_id") as (_ & Hmissing & _).
    + do 2 (apply elem_of_cons; right). apply elem_of_cons. by left.
    + exact (Hmissing _ eq_refl).
Defined.

(** The connection has a vault reference and direct fields: the vault wins. *)
Lemma vault_before_direct_sample :
  (_get_client_config Sample.world "r2index_default").1
  = {| index_api_url := PStr "https://vault.example";
       index_api_token := PStr "s3cr3t";
       r2_access_key_id := PNone;
       r2_secret_access_key := PNone;
       r2_endpoint_url := PNone |}.
Proof.
  exact (proj1 (proj2 (proj2 (config_resolution_is_a_tier_chain Sample.world
                                "r2index_default")))
           Sample.vault_connection _ eq_refl eq_refl eq_refl eq_refl).
Defined.

Lemma results_follow_the_items_sample :
  (upload_all Sample.world Sample.uploads Sample.lifo).1
  = (upload_all Sample.world Sample.uploads Sample.fifo).1.
Proof.
  exact (proj2 (proj2 (proj1 (results_follow_the_items Sample.world Sample.fifo)
                         Sample.uploads)) Sample.lifo).
Defined.

Lemma batch_failure_sample :
  AirflowException "1/3 uploads failed"
  = batch_failure "uploads"
      (length (List.filter is_failure (upload_all Sample.world Sample.uploads Sample.lifo).1))
      (length (items Sample.uploads)).
Proof.
  exact (proj1 (proj2 (proj1 (execute_raises_iff_an_item_failed Sample.world Sample.lifo)
                         Sample.uploads)) _ eq_refl).
Defined.

(** Three items, two effective connection ids, two lookups. *)
Lemma resolved_once_sample :
  NoDup (lookups (calls (upload_all Sample.world Sample.uploads Sample.lifo).2))
  /\ lookups (upload_execute Sample.world Sample.uploads Sample.lifo).2
     = ["other"; "r2index_default"].
Proof.
  split; [|reflexivity].
  exact (proj1 (proj2 (proj1 (each_connection_id_is_resolved_once Sample.world Sample.lifo)
                         Sample.uploads))).
Defined.

Lemma failed_batch_returns_nothing_sample :
  exists message,
    (download_execute Sample.world Sample.failing_downloads Sample.fifo).1
    = Raised (AirflowException message).
Proof.
  apply (proj2 (proj2 (proj2 (execute_returns_records_without_status Sample.world
                                Sample.fifo) Sample.failing_downloads))).
  exists [("status", PStr "error"); ("message", PStr "not found");
          ("source_path", PStr "acme/bad")].
  split; [|reflexivity].
  apply elem_of_cons. right. apply elem_of_cons. by left.
Defined.

End Samples.

(** * Further properties *)

(** ** The fetches of the vault resolution *)

Module SecretProps.
Import Hook Spec More PyFacts.

Lemma bind_calls_eq {A B} (m : io A) (f : A -> io B) :
  (bind m f).2 = m.2 ++ match m.1 with Returned a => (f a).2 | Raised _ => [] end.
Proof.
  destruct m as [[a|e] t]; simpl; [|by rewrite app_nil_r]. by destruct (f a).
Qed.

Lemma bind_value_eq {A B} (m : io A) (f : A -> io B) :
  (bind m f).1 = match m.1 with Returned a => (f a).1 | Raised e => Raised e end.
Proof. destruct m as [[a|e] t]; simpl; [|done]. by destruct (f a). Qed.

Ltac next_secret :=
  match goal with
  | |- context [get_secret_value ?a ?b ?c ?d] =>
      destruct (get_secret_value a b c d) as [[[? ?]|?] ?]; simpl
  end.

Lemma get_config_from_vault_as_list {TC} (w : World TC) vault_conn_id secrets namespace :
  (_get_config_from_vault w vault_conn_id secrets namespace).2
  = EvVaultHook vault_conn_id
    :: match new_VaultHook w vault_conn_id with
       | Returned vault_hook => (get_secret_values vault_hook secrets CONFIG_KEYS ∅).2
       | Raised _ => []
       end
  /\ (is_Some (_get_config_from_vault w vault_conn_id secrets namespace).1
      <-> match new_VaultHook w vault_conn_id with
          | Returned vault_hook =>
              exists vs, (get_secret_values vault_hook secrets CONFIG_KEYS ∅).1 = Returned vs
          | Raised _ => False
          end).
Proof.
  unfold _get_config_from_vault, CONFIG_KEYS, try_except, call. simpl.
  destruct (new_VaultHook w vault_conn_id) as [vault_hook|e]; simpl.
  2:{ split; [done|]. split; [by intros [? ?]|done]. }
  do 5 (next_secret;
        [|split; [by rewrite ?app_nil_r|]; split; [by intros [? ?]|by intros [? ?]]]).
  split.
  - by rewrite ?app_nil_r, <- ?app_assoc.
  - split; [intros _; eauto|done].
Qed.

(** One [get_secret_value]: it fetches nothing, or the path of the key's
    reference, and then only a path that is not in the cache; when it
    returns, the cache holds what it held and that path. *)
Lemma get_secret_value_fetches vault_hook secrets config_key secret_cache :
  (fetched (get_secret_value vault_hook secrets config_key secret_cache).2 = []
   /\ forall v secret_cache',
        (get_secret_value vault_hook secrets config_key secret_cache).1
        = Returned (v, secret_cache') ->
        secret_cache' = secret_cache
        /\ forall path, reference_path secrets config_key = Some path ->
                        is_Some (secret_cache !! path))
  \/ exists path,
      (get_secret_value vault_hook secrets config_key secret_cache).2 = [EvGetSecret path]
      /\ secret_cache !! path = None
      /\ reference_path secrets config_key = Some path
      /\ forall v secret_cache',
           (get_secret_value vault_hook secrets config_key secret_cache).1
           = Returned (v, secret_cache') ->
           forall path', is_Some (secret_cache' !! path')
                         <-> path' = path \/ is_Some (secret_cache !! path').
Proof.
  unfold get_secret_value, secrets_get, reference_path.
  destruct secrets as [| | | |xs|kvs]; simpl; try (left; by split).
  destruct (dict_get kvs config_key) as [|b|n|ref|xs|d] eqn:Href; simpl.
  - left. split; [done|]. by intros v c [= <- <-].
  - left. split; [by destruct b|]. destruct b; simpl; [done|]. by intros v c [= <- <-].
  - left. split; [by destruct (n =? 0)%Z|].
    destruct (n =? 0)%Z; simpl; [|done]. by intros v c [= <- <-].
  - destruct (String.eqb ref "") eqn:Hempty; simpl.
    { left. split; [done|]. by intros v c [= <- <-]. }
    destruct (_parse_secret_ref ref config_key) as [path key]. simpl.
    destruct (secret_cache !! path) as [entry|] eqn:Hcache; simpl.
    + left. split; [done|]. intros v c [= <- <-]. split; [done|].
      intros path' [= <-]. by rewrite Hcache.
    + right. exists path.
      destruct (vault_hook path) as [data|e]; simpl.
      * split; [done|]. split; [done|]. split; [done|].
        intros v c [= <- <-] path'. rewrite lookup_insert_is_Some.
        split.
        -- intros [<- | [_ ?]]; [by left|by right].
        -- intros [-> | ?]; [by left|].
           destruct (decide (path = path')); [by left|by right].
      * done.
  - left. split; [by destruct xs|]. destruct xs; simpl; [|done]. by intros v c [= <- <-].
  - left. split; [by destruct d|]. destruct d; simpl; [|done]. by intros v c [= <- <-].
Qed.

Lemma fetched_app t1 t2 : fetched (t1 ++ t2) = fetched t1 ++ fetched t2.
Proof. unfold fetched. apply omap_app. Qed.

Lemma get_secret_value_fetched vault_hook secrets config_key secret_cache :
  let run := get_secret_value vault_hook secrets config_key secret_cache in
  length (fetched run.2) <= 1
  /\ run.2 = EvGetSecret <$> fetched run.2
  /\ NoDup (fetched run.2)
  /\ (forall path, path ∈ fetched run.2 ->
                   secret_cache !! path = None
                   /\ reference_path secrets config_key = Some path)
  /\ (forall v secret_cache',
        run.1 = Returned (v, secret_cache') ->
        (forall path, is_Some (secret_cache' !! path)
                      <-> path ∈ fetched run.2 \/ is_Some (secret_cache !! path))
        /\ (forall path, reference_path secrets config_key = Some path ->
                         is_Some (secret_cache' !! path))).
Proof.
  simpl.
  destruct (get_secret_value_fetches vault_hook secrets config_key secret_cache)
    as [[Hnone Hsame]|(path & Hone & Hmiss & Href & Hcache)].
  - rewrite Hnone.
    assert (Hnil : (get_secret_value vault_hook secrets config_key secret_cache).2 = []).
    { revert Hnone. unfold get_secret_value, secrets_get.
      destruct secrets as [| | | |xs|kvs]; simpl; try done.
      destruct (dict_get kvs config_key) as [|b|n|ref|xs|d]; simpl; try done.
      - by destruct b.
      - by destruct (n =? 0)%Z.
      - destruct (String.eqb ref ""); simpl; [done|].
        destruct (_parse_secret_ref ref config_key) as [path key]. simpl.
        destruct (secret_cache !! path); simpl; [done|].
        by destruct (vault_hook path).
      - by destruct xs.
      - by destruct d. }
    split; [simpl; lia|].
    split; [done|]. split; [apply NoDup_nil_2|].
    split; [by intros path ?%elem_of_nil|].
    intros v cache' Hret. destruct (Hsame _ _ Hret) as [-> Hin].
    split; [|done]. intros path. split; [by right|].
    by intros [?%elem_of_nil|?].
  - rewrite Hone. simpl.
    split; [lia|].
    split; [done|]. split; [apply NoDup_singleton|].
    split; [by intros path' ->%list_elem_of_singleton|].
    intros v cache' Hret. specialize (Hcache _ _ Hret).
    split.
    + intros path'. by rewrite Hcache, list_elem_of_singleton.
    + intros path' Href'. rewrite Href in Href'. injection Href' as <-.
      apply Hcache. by left.
Qed.

(** The fetches of a sequence of keys: paths that were not in the cache,
    each once, each the path of the reference of one of the keys; and, when
    every fetch returned, the path of every reference. *)
Lemma get_secret_values_fetches vault_hook secrets config_keys secret_cache :
  let run := get_secret_values vault_hook secrets config_keys secret_cache in
  length (fetched run.2) <= length config_keys
  /\ run.2 = EvGetSecret <$> fetched run.2
  /\ NoDup (fetched run.2)
  /\ (forall path, path ∈ fetched run.2 ->
                   secret_cache !! path = None
                   /\ exists k, k ∈ config_keys /\ reference_path secrets k = Some path)
  /\ (forall vs, run.1 = Returned vs ->
                 forall k path, k ∈ config_keys -> reference_path secrets k = Some path ->
                                is_Some (secret_cache !! path) \/ path ∈ fetched run.2).
Proof.
  revert secret_cache. induction config_keys as [|k keys IH]; intros secret_cache; simpl.
  { split; [done|]. split; [done|]. split; [apply NoDup_nil_2|].
    split; [by intros path ?%elem_of_nil|]. by intros vs _ k path ?%elem_of_nil. }
  rewrite bind_calls_eq, bind_value_eq.
  destruct (get_secret_value_fetched vault_hook secrets k secret_cache)
    as (Hlen1 & Hshape1 & Hnodup1 & Hnew1 & Hret1).
  destruct (get_secret_value vault_hook secrets k secret_cache) as [[[v cache']|e] t1];
    cbn [fst snd] in *.
  2:{ rewrite app_nil_r. split; [lia|]. split; [done|]. split; [done|]. split; [|done].
      intros path Hpath. destruct (Hnew1 _ Hpath) as [? ?].
      split; [done|]. exists k. split; [|done]. apply elem_of_cons. by left. }
  destruct (Hret1 _ _ eq_refl) as [Hdom Href]. clear Hret1.
  rewrite bind_calls_eq, bind_value_eq.
  destruct (IH cache') as (Hlen2 & Hshape2 & Hnodup2 & Hnew2 & Hret2).
  assert (Ht2 : forall t2 : list event,
             match (get_secret_values vault_hook secrets keys cache').1 with
             | Returned vs => (ret (v :: vs)).2
             | Raised _ => []
             end = [] ).
  { intros _. by destruct (get_secret_values vault_hook secrets keys cache').1. }
  rewrite (Ht2 []), app_nil_r, fetched_app, fmap_app, <- Hshape1, <- Hshape2.
  split; [rewrite length_app; lia|].
  split; [done|]. split; [|split].
  - apply NoDup_app. split; [done|]. split; [|done].
    intros path H1 H2. destruct (Hnew2 _ H2) as [Hmiss _].
    assert (is_Some (cache' !! path)) as [? ?] by (apply Hdom; by left). congruence.
  - intros path [H1|H2]%elem_of_app.
    + destruct (Hnew1 _ H1) as [? ?]. split; [done|].
      exists k. split; [|done]. apply elem_of_cons. by left.
    + destruct (Hnew2 _ H2) as [Hmiss (k' & Hk' & Hpath)]. split.
      * destruct (secret_cache !! path) eqn:Hold; [|done].
        assert (is_Some (cache' !! path)) as [? ?] by (apply Hdom; right; eauto).
        congruence.
      * exists k'. split; [|done]. apply elem_of_cons. by right.
  - intros vs Hvs k' path Hk' Hpath.
    destruct (get_secret_values vault_hook secrets keys cache').1 as [vs'|] eqn:Hrest;
      [|done].
    rewrite elem_of_app.
    apply elem_of_cons in Hk' as [-> | Hk'].
    + specialize (Href _ Hpath). apply Hdom in Href as [?|?]; [right; by left|by left].
    + destruct (Hret2 _ eq_refl _ _ Hk' Hpath) as [Hin|Hin]; [|right; by right].
      apply Hdom in Hin as [?|?]; [right; by left|by left].
Qed.

(** X1.  In one vault resolution the calls are the construction of the
    hook, then only [get_secret] calls, five at most; no path is fetched
    twice, although several keys may refer to one path; only paths of the
    references of the five config keys are fetched; and when a
    configuration is returned, the path of every reference was fetched. *)
Theorem vault_fetches_each_path_once {TC} (w : World TC)
    (vault_conn_id secrets namespace : pyval) :
  let run := _get_config_from_vault w vault_conn_id secrets namespace in
  run.2 = EvVaultHook vault_conn_id :: (EvGetSecret <$> fetched run.2)
  /\ length (fetched run.2) <= 5
  /\ NoDup (fetched run.2)
  /\ (forall path, path ∈ fetched run.2 ->
                   exists k, k ∈ CONFIG_KEYS /\ reference_path secrets k = Some path)
  /\ (is_Some run.1 ->
      forall k path, k ∈ CONFIG_KEYS -> reference_path secrets k = Some path ->
                     path ∈ fetched run.2).
Proof.
  simpl.
  destruct (get_config_from_vault_as_list w vault_conn_id secrets namespace)
    as [Hcalls Hvalue].
  rewrite Hcalls. rewrite Hvalue.
  change (fetched (EvVaultHook vault_conn_id :: ?t)) with (fetched t).
  destruct (new_VaultHook w vault_conn_id) as [vault_hook|e].
  2:{ split; [done|]. split; [simpl; lia|]. split; [apply NoDup_nil_2|].
      split; [by intros path ?%elem_of_nil|done]. }
  destruct (get_secret_values_fetches vault_hook secrets CONFIG_KEYS ∅)
    as (Hlen & Hshape & Hnodup & Hnew & Hall).
  split; [by rewrite <- Hshape|]. split; [done|]. split; [done|]. split.
  - intros path Hpath. by destruct (Hnew _ Hpath).
  - intros [vs Hvs] k path Hk Hpath.
    destruct (Hall _ Hvs _ _ Hk Hpath) as [[? Habs]|?]; [|done].
    by rewrite lookup_empty in Habs.
Qed.

End SecretProps.

(** ** The resolution of a connection *)

Module ConnectionProps.
Import Hook Operators Spec More PyFacts VaultProps SecretProps.

Lemma get_config_from_connection_eq {TC} (w : World TC) conn_id :
  _get_config_from_connection w conn_id
  = match get_connection w conn_id with
    | Raised _ => (None, [EvGetConnection conn_id])
    | Returned conn =>
        if truthy (vault_reference conn) then
          let secrets_raw := dict_get (extra_dejson conn) "vault_secrets_mapping" in
          if truthy secrets_raw then
            match secrets_raw with
            | PStr text =>
                match json_loads w text with
                | Raised _ => (None, [EvGetConnection conn_id; EvJsonLoads text])
                | Returned secrets =>
                    let run := _get_config_from_vault w (vault_reference conn) secrets
                                 (dict_get (extra_dejson conn) "vault_namespace") in
                    (run.1, EvGetConnection conn_id :: EvJsonLoads text :: run.2)
                end
            | secrets =>
                let run := _get_config_from_vault w (vault_reference conn) secrets
                             (dict_get (extra_dejson conn) "vault_namespace") in
                (run.1, EvGetConnection conn_id :: run.2)
            end
          else (None, [EvGetConnection conn_id])
        else (direct_tier w conn_id, [EvGetConnection conn_id])
    end.
Proof.
  unfold _get_config_from_connection, direct_tier, vault_reference, try_except, bind, call,
    lift.
  destruct (get_connection w conn_id) as [conn|e]; [|done].
  destruct (truthy (dict_get (extra_dejson conn) "vault_conn_id")); [|done].
  destruct (truthy (dict_get (extra_dejson conn) "vault_secrets_mapping")); [|done].
  cbn [negb].
  destruct (dict_get (extra_dejson conn) "vault_secrets_mapping") as [| | |text| |]; simpl;
    try by destruct (_get_config_from_vault _ _ _ _).
  destruct (json_loads w text); simpl; [|done].
  by destruct (_get_config_from_vault _ _ _ _).
Qed.

Lemma get_client_config_eq {TC} (w : World TC) conn_id :
  _get_client_config w conn_id
  = let run := _get_config_from_connection w conn_id in
    match run.1 with
    | Some c => if usable c then (c, run.2) else (env_tier w, run.2 ++ (_get_config_from_env w).2)
    | None => (env_tier w, run.2 ++ (_get_config_from_env w).2)
    end.
Proof.
  unfold _get_client_config, usable.
  destruct (_get_config_from_connection w conn_id) as [[c|] t]; simpl; [|done].
  by destruct (truthy (index_api_url c)).
Qed.

(** X2.  Only a connection that is found, refers to a vault and gives a
    non-empty secrets mapping makes the resolution call the vault or the
    JSON decoder.  A connection that is not found, or that refers to a vault
    without a mapping, gives no configuration after the one lookup, and the
    configuration is then the environment's; a connection without vault
    reference gives its direct fields after the one lookup. *)
Theorem only_a_mapped_vault_reference_reaches_the_vault {TC} (w : World TC)
    (conn_id : string) :
  let run := _get_config_from_connection w conn_id in
  ((exists e, e ∈ run.2 /\ vault_call e = true) ->
   exists conn,
     get_connection w conn_id = Returned conn
     /\ truthy (vault_reference conn) = true
     /\ truthy (dict_get (extra_dejson conn) "vault_secrets_mapping") = true)
  /\ (forall e,
        get_connection w conn_id = Raised e ->
        run = (None, [EvGetConnection conn_id])
        /\ _get_client_config w conn_id
           = (env_tier w, EvGetConnection conn_id :: (_get_config_from_env w).2))
  /\ (forall conn,
        get_connection w conn_id = Returned conn ->
        truthy (vault_reference conn) = true ->
        truthy (dict_get (extra_dejson conn) "vault_secrets_mapping") = false ->
        run = (None, [EvGetConnection conn_id])
        /\ _get_client_config w conn_id
           = (env_tier w, EvGetConnection conn_id :: (_get_config_from_env w).2))
  /\ (forall conn,
        get_connection w conn_id = Returned conn ->
        truthy (vault_reference conn) = false ->
        run = (direct_fields w conn_id, [EvGetConnection conn_id])).
Proof.
  simpl. rewrite get_client_config_eq, get_config_from_connection_eq. cbv zeta.
  split; [|split; [|split]].
  - intros (e & He & Hcall).
    destruct (get_connection w conn_id) as [conn|]; simpl in He.
    2:{ apply list_elem_of_singleton in He as ->. done. }
    exists conn. split; [done|].
    destruct (truthy (vault_reference conn)).
    2:{ apply list_elem_of_singleton in He as ->. done. }
    split; [done|].
    destruct (truthy (dict_get (extra_dejson conn) "vault_secrets_mapping")); [done|].
    apply list_elem_of_singleton in He as ->. done.
  - by intros e ->.
  - by intros conn -> -> ->.
  - intros conn Hconn Href. rewrite Hconn, Href.
    unfold direct_tier, direct_fields. by rewrite Hconn, Href.
Qed.

(** X3.  A secrets mapping given as a string is decoded before the vault is
    asked: when the decoder returns, the resolution is that of the vault
    for the decoded mapping, after the lookup and the decoding; when it
    raises, there is no configuration and the vault is not called. *)
Theorem a_string_mapping_is_decoded_first {TC} (w : World TC) (conn_id : string)
    (conn : Connection) (text : string) :
  get_connection w conn_id = Returned conn ->
  truthy (vault_reference conn) = true ->
  dict_get (extra_dejson conn) "vault_secrets_mapping" = PStr text ->
  text <> "" ->
  (forall secrets,
      json_loads w text = Returned secrets ->
      let run := _get_config_from_vault w (vault_reference conn) secrets
                   (dict_get (extra_dejson conn) "vault_namespace") in
      _get_config_from_connection w conn_id
      = (run.1, EvGetConnection conn_id :: EvJsonLoads text :: run.2))
  /\ (forall e,
        json_loads w text = Raised e ->
        _get_config_from_connection w conn_id
        = (None, [EvGetConnection conn_id; EvJsonLoads text])).
Proof.
  intros Hconn Href Hmap Htext.
  rewrite get_config_from_connection_eq, Hconn, Href. simpl. rewrite Hmap.
  rewrite (truthy_str _ Htext).
  split; [by intros secrets ->|by intros e ->].
Qed.

(** X4.  A secrets mapping that is not a string is never given to the
    decoder. *)
Theorem an_object_mapping_is_not_decoded {TC} (w : World TC) (conn_id : string) :
  (forall conn text,
      get_connection w conn_id = Returned conn ->
      dict_get (extra_dejson conn) "vault_secrets_mapping" <> PStr text) ->
  forall text, EvJsonLoads text ∉ (_get_config_from_connection w conn_id).2.
Proof.
  intros Hobject text. rewrite get_config_from_connection_eq. cbv zeta.
  assert (Hvault : forall vid secrets ns,
             EvJsonLoads text ∉ (_get_config_from_vault w vid secrets ns).2).
  { intros vid secrets ns Hin.
    destruct (get_config_from_vault_as_list w vid secrets ns) as [Heq _].
    rewrite Heq in Hin. apply elem_of_cons in Hin as [?|Hin]; [done|].
    destruct (new_VaultHook w vid) as [vault_hook|]; [|by apply elem_of_nil in Hin].
    destruct (get_secret_values_fetches vault_hook secrets CONFIG_KEYS ∅) as (_ & Hshape & _).
    rewrite Hshape in Hin. by apply list_elem_of_fmap in Hin as (? & ? & _). }
  destruct (get_connection w conn_id) as [conn|] eqn:Hconn.
  2:{ by intros ?%list_elem_of_singleton. }
  specialize (Hobject conn).
  destruct (truthy (vault_reference conn)); [|by intros ?%list_elem_of_singleton].
  destruct (truthy (dict_get (extra_dejson conn) "vault_secrets_mapping"));
    [|by intros ?%list_elem_of_singleton].
  destruct (dict_get (extra_dejson conn) "vault_secrets_mapping") as [| | |text'| |];
    simpl; try (intros [?|Hin]%elem_of_cons; [done|by apply Hvault in Hin]).
  by destruct (Hobject text' eq_refl).
Qed.

(** X5.  [vault_namespace] has no effect: two connections that differ in that
    entry of their extra only resolve to the same configuration with the
    same calls. *)
Theorem vault_namespace_is_ignored {TC} (w : World TC) (conn_id : string)
    (conn conn' : Connection) :
  get_connection w conn_id = Returned conn ->
  host conn' = host conn ->
  password conn' = password conn ->
  (forall k, k <> "vault_namespace" ->
             dict_get (extra_dejson conn') k = dict_get (extra_dejson conn) k) ->
  _get_config_from_connection (with_connection w conn') conn_id
  = _get_config_from_connection w conn_id
  /\ _get_client_config (with_connection w conn') conn_id = _get_client_config w conn_id.
Proof.
  intros Hconn Hhost Hpassword Hextra.
  assert (Hsame : _get_config_from_connection (with_connection w conn') conn_id
                  = _get_config_from_connection w conn_id).
  { assert (Hvault : forall vid secrets ns ns',
               _get_config_from_vault (with_connection w conn') vid secrets ns'
               = _get_config_from_vault w vid secrets ns) by (intros; reflexivity).
    rewrite !get_config_from_connection_eq. simpl. rewrite Hconn.
    unfold vault_reference, direct_tier. simpl. rewrite Hconn.
    unfold vault_reference. rewrite Hhost, Hpassword.
    rewrite (Hextra "vault_conn_id"), (Hextra "vault_secrets_mapping"),
      (Hextra "r2_access_key_id"), (Hextra "r2_secret_access_key"),
      (Hextra "r2_endpoint_url") by done.
    destruct (truthy (dict_get (extra_dejson conn) "vault_conn_id")); [|done].
    destruct (truthy (dict_get (extra_dejson conn) "vault_secrets_mapping")); [|done].
    destruct (dict_get (extra_dejson conn) "vault_secrets_mapping") as [| | |text| |];
      try by rewrite (Hvault _ _ (dict_get (extra_dejson conn) "vault_namespace")).
    destruct (json_loads w text); [|done].
    by rewrite (Hvault _ _ (dict_get (extra_dejson conn) "vault_namespace")). }
  split; [done|]. unfold _get_client_config. by rewrite Hsame.
Qed.

(** X6.  A secrets mapping the code cannot use gives no configuration: a
    mapping that is not an object makes the vault resolution return none
    without any fetch, and a mapping with a reference that is neither a
    string nor falsy makes it return none too, whatever the other
    references are. *)
Theorem an_unusable_mapping_gives_no_configuration {TC} (w : World TC)
    (vault_conn_id secrets namespace : pyval) :
  ((forall kvs, secrets <> PDict kvs) ->
   _get_config_from_vault w vault_conn_id secrets namespace
   = (None, [EvVaultHook vault_conn_id]))
  /\ (forall kvs k v,
        secrets = PDict kvs -> k ∈ CONFIG_KEYS ->
        dict_get kvs k = v -> truthy v = true -> (forall ref, v <> PStr ref) ->
        (_get_config_from_vault w vault_conn_id secrets namespace).1 = None).
Proof.
  split.
  - intros Hnodict. unfold _get_config_from_vault, try_except, bind, call.
    destruct (new_VaultHook w vault_conn_id) as [vault_hook|]; [|done].
    unfold get_secret_value, secrets_get, bind.
    destruct secrets; try done. by destruct (Hnodict kvs).
  - intros kvs k v -> Hk Hv Htruthy Hnostr.
    rewrite get_config_from_vault_value.
    destruct (new_VaultHook w vault_conn_id) as [vault_hook|]; [|done].
    assert (Hnone : fetch_value (fetch_key vault_hook (PDict kvs) k) = None).
    { unfold fetch_key. rewrite Hv. destruct v; try done; simpl in *.
      - by rewrite Htruthy.
      - by rewrite Htruthy.
      - by destruct (Hnostr s).
      - by rewrite Htruthy.
      - by rewrite Htruthy. }
    unfold CONFIG_KEYS in Hk.
    repeat (apply elem_of_cons in Hk as [->|Hk];
            [ rewrite Hnone;
              repeat match goal with
                     | |- context [fetch_value ?f] =>
                         lazymatch f with
                         | fetch_key _ _ _ => generalize (fetch_value f); intros [?|]
                         end
                     end; done |]).
    by apply elem_of_nil in Hk.
Qed.

End ConnectionProps.

(** ** The calls of a batch *)

Module TraceProps.
Import Hook Operators Spec More PyFacts LoopProps OperatorProps ConnectionProps.

Lemma resolution_calls_app {TC} (w : World TC) ids ids' :
  resolution_calls w (ids ++ ids') = resolution_calls w ids ++ resolution_calls w ids'.
Proof. unfold resolution_calls. by rewrite fmap_app, concat_app. Qed.

Lemma resolution_calls_perm {TC} (w : World TC) ids ids' :
  ids ≡ₚ ids' -> resolution_calls w ids ≡ₚ resolution_calls w ids'.
Proof.
  induction 1 as [|id ids ids' _ IH|id id' ids|ids ids' ids'' _ IH _ IH']; [done|..].
  - unfold resolution_calls in *. rewrite !fmap_cons. simpl. by apply Permutation_app_head.
  - unfold resolution_calls. rewrite !fmap_cons. simpl. rewrite !app_assoc.
    apply Permutation_app_tail, Permutation_app_comm.
  - by rewrite IH.
Qed.

Section Trace.
Context {TC : Type} (w : World TC) {Item : Type}.
Variable conn_id_of : Item -> string.
Variable bucket_of : Item -> string.
Variable attempt : ConnectionConfig -> string -> Item -> total (list (string * pyval)).
Hypothesis attempt_calls_client :
  forall cfg b item, Forall (fun e => client_call e = true) (attempt cfg b item).2.

#[local] Abbreviation task_ok := (task_ok w conn_id_of bucket_of attempt).
#[local] Abbreviation loop_ok := (loop_ok w conn_id_of bucket_of attempt).
#[local] Abbreviation resume := (resume w conn_id_of bucket_of attempt).
#[local] Abbreviation run_once := (run_once w conn_id_of bucket_of attempt).
#[local] Abbreviation run_loop := (run_loop w conn_id_of bucket_of attempt).
#[local] Abbreviation run_gather := (run_gather w conn_id_of bucket_of attempt).
#[local] Abbreviation expected_calls := (expected_calls w conn_id_of bucket_of attempt).
#[local] Abbreviation finished_calls := (finished_calls w conn_id_of bucket_of attempt).

(** [get_or_create_config] adds the calls of one resolution, or none. *)
Lemma get_or_create_config_trace conn_id st :
  exists r,
    calls (get_or_create_config w conn_id st).2 = calls st ++ r
    /\ resolution_calls w (lookups (calls (get_or_create_config w conn_id st).2))
       = resolution_calls w (lookups (calls st)) ++ r.
Proof.
  unfold get_or_create_config.
  destruct (conn_configs st !! conn_id).
  { exists []. by rewrite !app_nil_r. }
  pose proof (get_client_config_lookups w conn_id) as Hlk.
  assert (Hres : resolution_calls w [conn_id] = (_get_client_config w conn_id).2)
    by apply app_nil_r.
  destruct (_get_client_config w conn_id) as [config t]. simpl in *.
  exists t. split; [done|].
  by rewrite lookups_app, Hlk, resolution_calls_app, Hres.
Qed.

(** Resuming a task that has not finished adds the calls of a resolution
    when it starts, and the calls of its attempt when it ends. *)
Lemma resume_trace st item c :
  task_ok st item c -> unfinished c = true ->
  exists r a,
    calls (resume c st).2 = calls st ++ r ++ a
    /\ resolution_calls w (lookups (calls (resume c st).2))
       = resolution_calls w (lookups (calls st)) ++ r
    /\ (if unfinished (resume c st).1 then [] else expected_calls item) = a.
Proof.
  intros Htask Hun. destruct c as [item'|config bucket item'|result]; simpl in *; [| |done].
  - destruct (get_or_create_config_trace (conn_id_of item') st) as (r & Hcalls & Hres).
    destruct (get_or_create_config w (conn_id_of item') st) as [config st'].
    simpl in *. exists r, []. by rewrite app_nil_r.
  - destruct Htask as (-> & -> & -> & _). unfold Spec.expected_calls.
    pose proof (attempt_lookups attempt attempt_calls_client
                  (resolved w (conn_id_of item)) (bucket_of item) item) as Hlk.
    destruct (attempt (resolved w (conn_id_of item)) (bucket_of item) item) as [result t].
    simpl in *. exists [], t. by rewrite lookups_app, Hlk, !app_nil_r.
Qed.

Lemma finished_calls_insert items (ts : list (coroutine Item)) i item c c' :
  items !! i = Some item -> ts !! i = Some c -> unfinished c = true ->
  finished_calls items (<[i := c']> ts)
  ≡ₚ finished_calls items ts ++ (if unfinished c' then [] else expected_calls item).
Proof.
  revert ts i. induction items as [|item0 items IH]; intros [|c0 ts] [|i]; try done.
  - intros [= ->] [= ->] Hc. unfold More.finished_calls.
    simpl. rewrite Hc. simpl.
    destruct (unfinished c'); simpl; [by rewrite app_nil_r|].
    apply Permutation_app_comm.
  - intros Hitem Hts Hc. specialize (IH ts i Hitem Hts Hc).
    unfold More.finished_calls. simpl.
    rewrite <- app_assoc. by apply Permutation_app_head.
Qed.

Lemma run_once_trace items choice l :
  loop_ok items l ->
  calls (state l)
  ≡ₚ resolution_calls w (lookups (calls (state l))) ++ finished_calls items (tasks l) ->
  calls (state (run_once choice l))
  ≡ₚ resolution_calls w (lookups (calls (state (run_once choice l))))
     ++ finished_calls items (tasks (run_once choice l)).
Proof.
  intros [Htasks Hstate] Hcalls. unfold Operators.run_once.
  destruct (ready_from 0 (tasks l) !! (choice mod length (ready_from 0 (tasks l))))
    as [i|] eqn:Hpick; [|done].
  apply list_elem_of_lookup_2, ready_from_elem in Hpick as (_ & c & Hc & Hun).
  rewrite Nat.sub_0_r in Hc. rewrite Hc.
  destruct (Forall2_lookup_r _ _ _ _ _ Htasks Hc) as (item & Hitem & Htask).
  destruct (resume_trace (state l) item c Htask Hun) as (r & a & Hnew & Hres & Hdone).
  destruct (Operators.resume w conn_id_of bucket_of attempt c (state l)) as [c' st'].
  cbn [state tasks fst snd] in *. rewrite Hres, Hnew.
  rewrite (finished_calls_insert items (tasks l) i item c c' Hitem Hc Hun), Hdone.
  rewrite Hcalls at 1. rewrite <- !app_assoc. apply Permutation_app_head.
  rewrite !app_assoc. apply Permutation_app_tail, Permutation_app_comm.
Qed.

Lemma run_loop_trace items sched now turns l :
  loop_ok items l ->
  calls (state l)
  ≡ₚ resolution_calls w (lookups (calls (state l))) ++ finished_calls items (tasks l) ->
  calls (state (run_loop sched now turns l))
  ≡ₚ resolution_calls w (lookups (calls (state (run_loop sched now turns l))))
     ++ finished_calls items (tasks (run_loop sched now turns l)).
Proof.
  revert now l. induction turns as [|turns IH]; intros now l Hl Hcalls; simpl; [done|].
  apply IH.
  - by apply (run_once_ok w conn_id_of bucket_of attempt attempt_calls_client).
  - by apply run_once_trace.
Qed.

Lemma finished_calls_all items st (ts : list (coroutine Item)) :
  Forall2 (task_ok st) items ts -> total_work ts = 0 ->
  finished_calls items ts = concat (expected_calls <$> items).
Proof.
  induction 1 as [|item c items ts Htask _ IH]; [done|].
  rewrite total_work_cons. intros Hwork.
  destruct c as [| |result]; [simpl in Hwork; lia..|].
  unfold More.finished_calls. simpl.
  f_equal. by apply IH.
Qed.

(** The calls of a gather are, up to their order, the resolutions of the
    connection ids of the items, one for each id, and the attempts of the
    items, one for each item. *)
Lemma run_gather_trace sched items :
  calls (run_gather sched items).2
  ≡ₚ resolution_calls w (remove_dups (conn_id_of <$> items))
     ++ concat (expected_calls <$> items).
Proof.
  destruct (run_gather_ok w conn_id_of bucket_of attempt attempt_calls_client sched items)
    as (_ & (Hcache & Hnodup & Hdom & _) & Hcached).
  unfold Operators.run_gather in *. simpl in *.
  destruct (loop_ok_initial w conn_id_of bucket_of attempt items) as [Hinit Hwork].
  destruct (run_loop_ok w conn_id_of bucket_of attempt attempt_calls_client
              items sched 0 (2 * length items) _ Hinit) as [[Htasks Hstate] Hdone].
  simpl in Hdone. rewrite Hwork in Hdone.
  rewrite (run_loop_trace items sched 0 (2 * length items) _ Hinit).
  2:{ simpl. clear. by induction items. }
  rewrite (finished_calls_all items _ _ Htasks) by (simpl; lia).
  apply Permutation_app_tail, resolution_calls_perm, NoDup_Permutation;
    [done|apply NoDup_remove_dups|].
  intros c. rewrite elem_of_remove_dups, list_elem_of_fmap, Hdom. split.
  - intros [cfg Hcfg]. destruct (Hcache _ _ Hcfg) as (_ & item & ? & ?). eauto.
  - intros (item & -> & Hitem). by rewrite (Hcached item Hitem).
Qed.

End Trace.

Lemma concat_singletons {A B} (f : A -> B) (g : A -> list B) xs :
  (forall x, g x = [f x]) -> concat (g <$> xs) = f <$> xs.
Proof.
  intros Hg. induction xs as [|x xs IH]; [done|].
  rewrite !fmap_cons. simpl. by rewrite Hg, IH.
Qed.

(** X7.  Whatever the schedule, and whether items fail or not, the calls of
    [execute] are the same up to their order: one resolution for each
    effective connection id of the items, and one client call for each
    item, made with the item's effective bucket and the configuration of
    its effective connection id. *)
Theorem every_schedule_makes_the_same_calls {TC} (w : World TC) (sched : nat -> nat) :
  (forall self : Operator UploadItem TC,
      (upload_execute w self sched).2
      ≡ₚ resolution_calls w (remove_dups (upload_conn_id self <$> items self))
         ++ ((fun item => EvUpload (resolved w (upload_conn_id self item))
                            (upload_bucket self item) item) <$> items self))
  /\ (forall self : Operator DownloadItem TC,
        (download_execute w self sched).2
        ≡ₚ resolution_calls w (remove_dups (download_conn_id self <$> items self))
           ++ ((fun item => EvDownload (resolved w (download_conn_id self item))
                              (download_bucket self item) item) <$> items self)).
Proof.
  split; intros self.
  - rewrite upload_execute_calls. unfold upload_all.
    rewrite (run_gather_trace w _ _ _ (upload_try_calls w self)).
    by erewrite concat_singletons.
  - rewrite download_execute_calls. unfold download_all.
    rewrite (run_gather_trace w _ _ _ (download_try_calls w self)).
    by erewrite concat_singletons.
Qed.

(** A connection id that is not in the store resolves to the environment. *)
Lemma resolved_not_found {TC} (w : World TC) conn_id e :
  get_connection w conn_id = Raised e -> resolved w conn_id = env_tier w.
Proof.
  intros Hconn. unfold resolved.
  by rewrite get_client_config_eq, get_config_from_connection_eq, Hconn.
Qed.

(** X14.  A connection that is not found does not fail its items: an item
    whose effective connection id is not in the connection store is handed
    to the client all the same, with the configuration read from the
    environment variables. *)
Theorem an_unknown_connection_is_served_by_the_environment {TC} (w : World TC)
    (sched : nat -> nat) :
  (forall (self : Operator UploadItem TC) item e,
      item ∈ items self ->
      get_connection w (upload_conn_id self item) = Raised e ->
      EvUpload (env_tier w) (upload_bucket self item) item ∈ (upload_execute w self sched).2)
  /\ (forall (self : Operator DownloadItem TC) item e,
        item ∈ items self ->
        get_connection w (download_conn_id self item) = Raised e ->
        EvDownload (env_tier w) (download_bucket self item) item
        ∈ (download_execute w self sched).2).
Proof.
  split; intros self item e Hitem Hconn.
  - rewrite upload_execute_calls. unfold upload_all.
    rewrite (run_gather_trace w _ _ _ (upload_try_calls w self)).
    rewrite (concat_singletons
               (fun item => EvUpload (resolved w (upload_conn_id self item))
                              (upload_bucket self item) item)) by done.
    apply elem_of_app. right. apply list_elem_of_fmap. exists item.
    split; [|done]. by rewrite (resolved_not_found w _ e Hconn).
  - rewrite download_execute_calls. unfold download_all.
    rewrite (run_gather_trace w _ _ _ (download_try_calls w self)).
    rewrite (concat_singletons
               (fun item => EvDownload (resolved w (download_conn_id self item))
                              (download_bucket self item) item)) by done.
    apply elem_of_app. right. apply list_elem_of_fmap. exists item.
    split; [|done]. by rewrite (resolved_not_found w _ e Hconn).
Qed.

End TraceProps.

(** ** The client of the hook *)

Module HookClientProps.
Import Hook Operators HookClient Spec More.

Section HookMethods.
Context {TC Client : Type} (w : World TC) (sc : SyncClient Client).

Lemma get_conn_config_is_operator_config (self : R2IndexHook Client) :
  get_conn_config w self = _get_client_config w (hook_conn_id self).
Proof. done. Qed.

(** A hook that holds a client answers a method with one call of that
    client and stays as it is. *)
Lemma perform_with_client (self : R2IndexHook Client) client r :
  _client self = Some client ->
  exists o, perform w sc self r = (o, self, [client_event r]).
Proof.
  intros Hclient. destruct r; simpl;
    unfold upload, download, get_file, list_files, get_conn; rewrite Hclient; eauto.
Qed.

Lemma perform_all_with_client (self : R2IndexHook Client) client rs :
  _client self = Some client ->
  exists os,
    perform_all w sc self rs = (os, self, client_event <$> rs)
    /\ length os = length rs.
Proof.
  intros Hclient. induction rs as [|r rs IH]; simpl; [by exists []|].
  destruct (perform_with_client self client r Hclient) as [o ->].
  destruct IH as (os & -> & Hlen). exists (o :: os). simpl. by rewrite Hlen.
Qed.

Lemma perform_first (self : R2IndexHook Client) client r :
  _client self = None ->
  new_R2IndexClient sc (_get_client_config w (hook_conn_id self)).1 = Returned client ->
  exists o,
    perform w sc self r
    = (o, {| hook_conn_id := hook_conn_id self; _client := Some client |},
       (Resolving <$> (_get_client_config w (hook_conn_id self)).2)
       ++ [NewClient (_get_client_config w (hook_conn_id self)).1; client_event r]).
Proof.
  intros Hnone Hnew. destruct r; simpl;
    unfold upload, download, get_file, list_files, get_conn;
    rewrite Hnone, get_conn_config_is_operator_config;
    destruct (_get_client_config w (hook_conn_id self)) as [config t]; simpl in *;
    rewrite Hnew, <- app_assoc; simpl; eauto.
Qed.

End HookMethods.

(** X8.  However many methods are called on a hook, the configuration is
    resolved and the client is built once, by the first call: when the
    constructor of the client returns, the calls of a non-empty sequence of
    methods on a new hook are those of the resolution (the ones
    [_get_client_config] of the operators makes for the same connection
    id), one construction from the resolved configuration, then one client
    call for each method; the hook ends with that client. *)
Theorem hook_builds_its_client_once {TC Client} (w : World TC) (sc : SyncClient Client)
    (conn_id : option string) (client : Client) (r : request) (rs : list request) :
  let resolved := _get_client_config w (default "r2index_default" conn_id) in
  new_R2IndexClient sc resolved.1 = Returned client ->
  exists os self,
    perform_all w sc (R2IndexHook_init conn_id) (r :: rs) = (os, self, (Resolving <$> resolved.2)
       ++ NewClient resolved.1 :: (client_event <$> r :: rs))
    /\ _client self = Some client
    /\ length os = S (length rs).
Proof.
  simpl. intros Hnew.
  destruct (perform_first w sc (R2IndexHook_init conn_id) client r eq_refl Hnew) as [o ->].
  simpl.
  destruct (perform_all_with_client w sc
              {| hook_conn_id := default "r2index_default" conn_id; _client := Some client |}
              client rs eq_refl) as (os & -> & Hlen).
  exists (o :: os), {| hook_conn_id := default "r2index_default" conn_id;
                       _client := Some client |}.
  simpl. rewrite <- app_assoc, Hlen. done.
Qed.

Section HookFailures.
Context {TC Client : Type} (w : World TC) (sc : SyncClient Client).

Lemma perform_unbuilt (self : R2IndexHook Client) e r :
  _client self = None ->
  new_R2IndexClient sc (_get_client_config w (hook_conn_id self)).1 = Raised e ->
  perform w sc self r
  = (Raised e, self,
     (Resolving <$> (_get_client_config w (hook_conn_id self)).2)
     ++ [NewClient (_get_client_config w (hook_conn_id self)).1]).
Proof.
  intros Hnone Hnew. destruct r; simpl;
    unfold upload, download, get_file, list_files, get_conn;
    rewrite Hnone, get_conn_config_is_operator_config;
    destruct (_get_client_config w (hook_conn_id self)) as [config t]; simpl in *;
    by rewrite Hnew.
Qed.

End HookFailures.

(** X9.  A failed construction of the client is not remembered: when the
    constructor raises, every method call on the hook raises that
    exception without calling the client, leaves the hook without client,
    and resolves the configuration and tries the construction again. *)
Theorem hook_retries_an_unbuilt_client {TC Client} (w : World TC) (sc : SyncClient Client)
    (conn_id : option string) (e : exn) (rs : list request) :
  let resolved := _get_client_config w (default "r2index_default" conn_id) in
  new_R2IndexClient sc resolved.1 = Raised e ->
  perform_all w sc (R2IndexHook_init conn_id) rs
  = (replicate (length rs) (Raised e), R2IndexHook_init conn_id,
     mjoin (replicate (length rs) ((Resolving <$> resolved.2) ++ [NewClient resolved.1]))).
Proof.
  simpl. intros Hnew. induction rs as [|r rs IH]; [done|].
  simpl. rewrite (perform_unbuilt w sc (R2IndexHook_init conn_id) e r eq_refl Hnew).
  by rewrite IH.
Qed.

(** X10.  [download] of the hook calls [model_dump] on the record without
    looking at it: when the client downloads the file and returns no
    record, the method raises [AttributeError] after the download was made;
    with a record it returns the path and the dumped record. *)
Theorem hook_download_needs_a_record {TC Client} (w : World TC) (sc : SyncClient Client)
    (self : R2IndexHook Client) (client : Client) (args : DownloadArgs) (path : string) :
  _client self = Some client ->
  (sync_download sc client args = Returned (path, None) ->
   download w sc self args
   = (Raised (BuiltinError AttributeError), self, [ClientDownload args]))
  /\ (forall dumped,
        sync_download sc client args = Returned (path, Some dumped) ->
        download w sc self args
        = (Returned (PDict [("path", PStr path); ("file_record", dumped)]), self,
           [ClientDownload args])).
Proof.
  intros Hclient. unfold download, get_conn. rewrite Hclient. simpl.
  split; [by intros ->|by intros dumped ->].
Qed.

End HookClientProps.

(** ** The decorated operators *)

Module DecoratorProps.
Import Operators Decorators.

(** X11.  A decorated operator is the plain operator on what the decorated
    function returns: whatever [items] its constructor was given, [execute]
    calls the function with [op_args] and [op_kwargs] (empty when not given)
    and then behaves as [execute] of the operator constructed with the
    returned item or items; when the function raises, no collaborator is
    called and the operator is left as it was. *)
Theorem decorated_execute_runs_the_returned_items {TC} (w : World TC) (sched : nat -> nat)
    (op_args : option (list pyval)) (op_kwargs : option (list (string * pyval)))
    (bucket : string) (conn_id : option string) (tc : option TC) :
  (forall f (given : option (items_arg UploadItem)),
      let self := upload_decorated_init f op_args op_kwargs bucket given conn_id tc in
      items (operator self) = []
      /\ (forall returned,
            f (default [] op_args) (default [] op_kwargs) = Returned returned ->
            (upload_decorated_execute w self sched).1
            = upload_execute w (R2IndexUploadOperator_init bucket returned conn_id tc) sched
            /\ operator (upload_decorated_execute w self sched).2
               = R2IndexUploadOperator_init bucket returned conn_id tc)
      /\ (forall e,
            f (default [] op_args) (default [] op_kwargs) = Raised e ->
            upload_decorated_execute w self sched = ((Raised e, []), self)))
  /\ (forall f (given : option (items_arg DownloadItem)),
        let self := download_decorated_init f op_args op_kwargs bucket given conn_id tc in
        items (operator self) = []
        /\ (forall returned,
              f (default [] op_args) (default [] op_kwargs) = Returned returned ->
              (download_decorated_execute w self sched).1
              = download_execute w (R2IndexDownloadOperator_init bucket returned conn_id tc)
                  sched
              /\ operator (download_decorated_execute w self sched).2
                 = R2IndexDownloadOperator_init bucket returned conn_id tc)
        /\ (forall e,
              f (default [] op_args) (default [] op_kwargs) = Raised e ->
              download_decorated_execute w self sched = ((Raised e, []), self))).
Proof.
  split; intros f given self; subst self; (split; [done|]); split.
  - intros returned Hf. unfold upload_decorated_execute. simpl. by rewrite Hf.
  - intros e Hf. unfold upload_decorated_execute. simpl. by rewrite Hf.
  - intros returned Hf. unfold download_decorated_execute. simpl. by rewrite Hf.
  - intros e Hf. unfold download_decorated_execute. simpl. by rewrite Hf.
Qed.

End DecoratorProps.

(** ** The link of a value without a record *)

Module RecordProps.
Import Links PyFacts.

(** X12.  An entry [file_record] that is not a dict makes the link raise:
    with no usable [id] of its own, a persisted value whose [file_record]
    is present and is anything but a dict ([None], say) makes [get_link]
    raise [AttributeError]. *)
Theorem get_link_raises_on_a_record_that_is_no_dict
    (kvs : list (string * pyval)) (record : pyval) :
  truthy (dict_get kvs "id") = false ->
  assoc "file_record" kvs = Some record ->
  (forall r, record <> PDict r) ->
  get_link (PDict kvs) = Some (Raised (BuiltinError AttributeError)).
Proof.
  intros Hid Hrecord Hnodict. unfold get_link.
  assert (Hk : truthy (PDict kvs) = true) by (by destruct kvs).
  rewrite Hk, Hid, Hrecord. simpl.
  destruct record; try done. by destruct (Hnodict kvs0).
Qed.

End RecordProps.

(** ** The link of what an operator returns *)

Module OperatorLinkProps.
Import Links Operators Decorators More.


End OperatorLinkProps.

(** ** The further properties at the sample inputs *)

Module MoreSamples.
Import Hook Links Operators HookClient Decorators Spec More.
Import SecretProps ConnectionProps TraceProps HookClientProps DecoratorProps RecordProps.

(** Three keys, two paths: the first two keys share a secret. *)
Lemma vault_fetches_sample :
  let run := _get_config_from_vault Sample.world (PStr "openbao_default")
               (dict_get (extra_dejson Sample.vault_connection) "vault_secrets_mapping")
               PNone in
  fetched run.2 = ["cloudflare/r2index"; "cloudflare/r2/airflow"]
  /\ NoDup (fetched run.2).
Proof.
  split; [reflexivity|].
  exact (proj1 (proj2 (proj2 (vault_fetches_each_path_once Sample.world
                                (PStr "openbao_default")
                                (dict_get (extra_dejson Sample.vault_connection)
                                   "vault_secrets_mapping")
                                PNone)))).
Defined.

(** No connection: one lookup, then the environment. *)
Lemma connection_not_found_sample :
  _get_config_from_connection MoreSample.bare_world "r2index_default"
  = (None, [EvGetConnection "r2index_default"])
  /\ _get_client_config MoreSample.bare_world "r2index_default"
     = (env_tier MoreSample.bare_world,
        EvGetConnection "r2index_default" :: (_get_config_from_env MoreSample.bare_world).2).
Proof.
  exact (proj1 (proj2 (only_a_mapped_vault_reference_reaches_the_vault MoreSample.bare_world
                         "r2index_default"))
           (ExternalError "connection not found") eq_refl).
Defined.

Lemma string_mapping_sample :
  let run := _get_config_from_vault MoreSample.json_world (PStr "openbao_default")
               (PDict [("r2index_api_url", PStr "cloudflare/r2index#api-url");
                       ("r2index_api_token", PStr "cloudflare/r2index#api-token")])
               (PStr "elaunira/production") in
  _get_config_from_connection MoreSample.json_world "r2index_default"
  = (run.1, EvGetConnection "r2index_default" :: EvJsonLoads "{...}" :: run.2).
Proof.
  refine (proj1 (a_string_mapping_is_decoded_first MoreSample.json_world "r2index_default"
                   MoreSample.json_connection "{...}" eq_refl eq_refl eq_refl _)
            _ eq_refl).
  discriminate.
Defined.

Lemma object_mapping_sample :
  EvJsonLoads "{...}" ∉ (_get_config_from_connection Sample.world "r2index_default").2.
Proof.
  apply (an_object_mapping_is_not_decoded Sample.world "r2index_default").
  intros conn text Hconn. injection Hconn as <-. discriminate.
Defined.

Lemma vault_namespace_sample :
  _get_client_config (with_connection MoreSample.json_world MoreSample.other_namespace)
    "r2index_default"
  = _get_client_config MoreSample.json_world "r2index_default".
Proof.
  refine (proj2 (vault_namespace_is_ignored MoreSample.json_world "r2index_default"
                   MoreSample.json_connection MoreSample.other_namespace
                   eq_refl eq_refl eq_refl _)).
  intros k Hk. unfold dict_get. simpl.
  destruct (String.eqb k "vault_conn_id"); [reflexivity|].
  destruct (String.eqb_spec k "vault_namespace") as [Heq|_]; [by destruct Hk|].
  reflexivity.
Defined.

Lemma unusable_mapping_sample :
  _get_config_from_vault Sample.world (PStr "openbao_default") (PList []) PNone
  = (None, [EvVaultHook (PStr "openbao_default")])
  /\ (_get_config_from_vault Sample.world (PStr "openbao_default")
        (PDict MoreSample.number_mapping) PNone).1 = None.
Proof.
  destruct (an_unusable_mapping_gives_no_configuration Sample.world (PStr "openbao_default")
              (PList []) PNone) as [Hlist _].
  destruct (an_unusable_mapping_gives_no_configuration Sample.world (PStr "openbao_default")
              (PDict MoreSample.number_mapping) PNone) as [_ Hnumber].
  split.
  - apply Hlist. discriminate.
  - apply (Hnumber MoreSample.number_mapping "r2index_api_url" (PInt 7) eq_refl).
    + apply elem_of_cons. by left.
    + reflexivity.
    + reflexivity.
    + discriminate.
Defined.

(** Three items, two connection ids: two resolutions and three uploads. *)
Lemma same_calls_sample :
  (upload_execute Sample.world Sample.uploads Sample.lifo).2
  ≡ₚ resolution_calls Sample.world ["r2index_default"; "other"]
     ++ ((fun item => EvUpload (resolved Sample.world (upload_conn_id Sample.uploads item))
                        (upload_bucket Sample.uploads item) item) <$> items Sample.uploads).
Proof.
  exact (proj1 (every_schedule_makes_the_same_calls Sample.world Sample.lifo) Sample.uploads).
Defined.

Lemma hook_builds_its_client_once_sample :
  exists os self,
    perform_all Sample.world MoreSample.sync_client (R2IndexHook_init None)
      [GetFile "abc123"; Download (MoreSample.download_args "acme/data"); GetFile "xyz"]
    = (os, self,
       (Resolving <$> (_get_client_config Sample.world "r2index_default").2)
       ++ [NewClient (_get_client_config Sample.world "r2index_default").1;
           ClientGet "abc123"; ClientDownload (MoreSample.download_args "acme/data");
           ClientGet "xyz"])
    /\ _client self = Some (_get_client_config Sample.world "r2index_default").1
    /\ length os = 3.
Proof.
  exact (hook_builds_its_client_once Sample.world MoreSample.sync_client None
           (_get_client_config Sample.world "r2index_default").1
           (GetFile "abc123")
           [Download (MoreSample.download_args "acme/data"); GetFile "xyz"] eq_refl).
Defined.

(** Without connection and environment there is no API URL, and the
    client cannot be built. *)
Lemma hook_retries_sample :
  perform_all MoreSample.bare_world MoreSample.sync_client (R2IndexHook_init None)
    [GetFile "abc123"; GetFile "xyz"]
  = ([Raised (ExternalError "index_api_url is required");
      Raised (ExternalError "index_api_url is required")],
     R2IndexHook_init None,
     mjoin (replicate 2
              ((Resolving <$> (_get_client_config MoreSample.bare_world "r2index_default").2)
               ++ [NewClient (_get_client_config MoreSample.bare_world
                                "r2index_default").1]))).
Proof.
  exact (hook_retries_an_unbuilt_client MoreSample.bare_world MoreSample.sync_client None
           (ExternalError "index_api_url is required") [GetFile "abc123"; GetFile "xyz"]
           eq_refl).
Defined.

Lemma hook_download_sample :
  download Sample.world MoreSample.sync_client MoreSample.built_hook
    (MoreSample.download_args "acme/raw")
  = (Raised (BuiltinError AttributeError), MoreSample.built_hook,
     [ClientDownload (MoreSample.download_args "acme/raw")]).
Proof.
  exact (proj1 (hook_download_needs_a_record Sample.world MoreSample.sync_client
                  MoreSample.built_hook (env_tier Sample.world)
                  (MoreSample.download_args "acme/raw") "/tmp/data.csv" eq_refl)
           eq_refl).
Defined.

Lemma decorated_sample :
  let self := upload_decorated_init MoreSample.prepare_upload None None "bucket"
                (Some (ItemList [Sample.upload_item "/tmp/ignored.csv" None])) None None in
  (upload_decorated_execute Sample.world self Sample.fifo).1
  = upload_execute Sample.world
      (R2IndexUploadOperator_init "bucket"
         (OneItem (Sample.upload_item "/tmp/a.csv" None)) None None)
      Sample.fifo.
Proof.
  exact (proj1 (proj1 (proj2 (proj1 (decorated_execute_runs_the_returned_items Sample.world
                                       Sample.fifo None None "bucket" None None)
                                MoreSample.prepare_upload
                                (Some (ItemList [Sample.upload_item "/tmp/ignored.csv"
                                                   None]))))
                  (OneItem (Sample.upload_item "/tmp/a.csv" None)) eq_refl)).
Defined.

Lemma no_record_sample :
  get_link (PDict MoreSample.no_record) = Some (Raised (BuiltinError AttributeError)).
Proof.
  apply (get_link_raises_on_a_record_that_is_no_dict MoreSample.no_record PNone
           eq_refl eq_refl).
  discriminate.
Defined.

(** The connection ["other"] is not in the store. *)
Lemma unknown_connection_sample :
  EvUpload (env_tier Sample.world) "bucket" (Sample.upload_item "/tmp/c.csv" (Some "other"))
  ∈ (upload_execute Sample.world Sample.uploads Sample.lifo).2.
Proof.
  apply (proj1 (an_unknown_connection_is_served_by_the_environment Sample.world Sample.lifo)
           Sample.uploads (Sample.upload_item "/tmp/c.csv" (Some "other"))
           (ExternalError "connection not found")).
  - do 2 (apply elem_of_cons; right). apply elem_of_cons. by left.
  - reflexivity.
Defined.

End MoreSamples.
